(** * A serverless PyPI index: the Lambda handlers of [index.py]

    Shallow embedding of [src/index.py] and proofs about its request
    router, its package index assembler and its reindexer.

    Reading conventions.
    - A Python [str] is a Rocq [string]; one [ascii] stands for one
      character, so the strings covered are those whose code points are
      below 256.  [bytes] are lists of 8-bit values.
    - [None] is [option]'s [None]; a dictionary key that may be missing
      is an [option] field.
    - Exceptions are values of [exn]; a computation that may raise
      returns a [result].
    - The S3 bucket, the paginator and the URL signer are the [world]
      that the handlers run against; each client call is logged, a
      listing once for all its pages. *)

From Stdlib Require Import ZArith Ascii String List Bool Lia.
From stdpp Require Import gmap strings.

Local Open Scope Z_scope.
Local Open Scope nat_scope.

(** ** Exceptions and results *)

Inductive exn : Type :=
| AttributeError      (* attribute access on [None] *)
| TypeError           (* iteration over [None] *)
| IndexError          (* [Match.group] of a group the pattern lacks *)
| ReError             (* [re.error]: the pattern does not compile *)
| NoSuchKey           (* [get_object] of a key the bucket lacks *)
| UnicodeDecodeError  (* [bytes.decode] of ill-formed UTF-8 *)
| OutsideFragment.    (* the run leaves the fragment of Python covered here:
                         nothing is stated about it *)

Inductive result (A : Type) : Type :=
| Ok (a : A)
| Raise (e : exn).
Arguments Ok {A} a.
Arguments Raise {A} e.

Definition result_bind {A B} (r : result A) (f : A -> result B) : result B :=
  match r with
  | Ok a => f a
  | Raise e => Raise e
  end.

(** ** Python string operations *)

Module Str.

Definition dquote : string := String (ascii_of_nat 34) EmptyString.
Definition newline : ascii := ascii_of_nat 10.

Fixpoint mem (c : ascii) (chars : string) : bool :=
  match chars with
  | EmptyString => false
  | String d chars' => Ascii.eqb c d || mem c chars'
  end.

(** [s.lstrip(chars)] *)
Fixpoint lstrip (chars s : string) : string :=
  match s with
  | EmptyString => EmptyString
  | String c s' => if mem c chars then lstrip chars s' else s
  end.

(** [s.rstrip(chars)] *)
Fixpoint rstrip (chars s : string) : string :=
  match s with
  | EmptyString => EmptyString
  | String c s' =>
      match rstrip chars s' with
      | EmptyString => if mem c chars then EmptyString else String c EmptyString
      | t => String c t
      end
  end.

(** [s.strip(chars)] *)
Definition strip (chars s : string) : string := rstrip chars (lstrip chars s).

(** [''.join(parts)] *)
Definition join (parts : list string) : string :=
  fold_right String.append EmptyString parts.

(** [s[i:j]] for [0 <= i <= j] *)
Definition slice (i j : nat) (s : string) : string := String.substring i (j - i) s.

(** Truth value of an optional string: [None] and [''] are false. *)
Definition truthy (o : option string) : bool :=
  match o with
  | Some (String _ _) => true
  | _ => false
  end.

(** The text after the last occurrence of [sep], the whole string when
    there is none: [s[s.rfind(sep) + 1:]]. *)
Fixpoint after_last (sep : ascii) (s : string) : string :=
  match s with
  | EmptyString => EmptyString
  | String c s' =>
      if mem sep s' then after_last sep s'
      else if Ascii.eqb c sep then s' else s
  end.

(** The text up to and including the last [sep]: [s[:s.rfind(sep) + 1]]. *)
Fixpoint upto_last (sep : ascii) (s : string) : string :=
  match s with
  | EmptyString => EmptyString
  | String c s' =>
      if mem sep s' then String c (upto_last sep s')
      else if Ascii.eqb c sep then String c EmptyString else EmptyString
  end.

Fixpoint all_char (c : ascii) (s : string) : bool :=
  match s with
  | EmptyString => true
  | String d s' => Ascii.eqb d c && all_char c s'
  end.

(** [s[len(p):]] when [s.startswith(p)] *)
Fixpoint drop_prefix (p s : string) : option string :=
  match p, s with
  | EmptyString, _ => Some s
  | String c p', String d s' => if Ascii.eqb c d then drop_prefix p' s' else None
  | String _ _, EmptyString => None
  end.

End Str.

(** [os.path.split] of [posixpath]: the head loses its trailing slashes
    unless it consists of slashes only. *)
Definition os_path_split (p : string) : string * string :=
  let head := Str.upto_last "/" p in
  let tail := Str.after_last "/" p in
  let head' :=
    match head with
    | EmptyString => head
    | _ => if Str.all_char "/" head then head else Str.rstrip "/" head
    end in
  (head', tail).

(** ** Regular expressions: the fragment of Python's [re] used by the router

    [get_response] builds its pattern by pasting [BASE_PATH] between
    [^] and [/([^/]+)$], so the pattern is parsed here from its text.
    Covered syntax: literal characters, [.], [^], [$], character sets
    [[...]] and [[^...]] over plain members, capturing groups, [|] and
    the greedy quantifiers [*], [+], [?] over an operand that cannot
    match the empty string.  A pattern with a backslash, a brace, a
    group extension [(?...)], a lazy or possessive quantifier, a range
    inside a set or a quantifier over an operand that can match the
    empty string is answered by [Unsupported]. *)

Module Re.

Inductive regex : Type :=
| RChar (c : ascii)              (* a literal character *)
| RAny                           (* [.]: any character but a newline *)
| RIn (members : string)         (* [[abc]] *)
| RNotIn (members : string)      (* [[^abc]] *)
| RBol                           (* [^] *)
| REol                           (* [$] *)
| REmpty
| RSeq (r1 r2 : regex)
| RAlt (r1 r2 : regex)
| RStar (r : regex)
| RPlus (r : regex)
| ROpt (r : regex)
| RGroup (n : nat) (r : regex).  (* the [n]-th capturing group *)

(** *** Parsing *)

Inductive failure : Type :=
| Invalid        (* [re.compile] raises [re.error] *)
| Unsupported.   (* outside the fragment *)

Inductive compiled : Type :=
| Compiled (r : regex) (ngroups : nat)
| Failed (why : failure).

(** An open sequence of alternatives: the top level ([f_group = None])
    or a group under construction.  Lists are kept most recent first. *)
Record frame : Type := Frame {
  f_group : option nat;
  f_alts : list regex;
  f_cur : list regex
}.

Inductive mode : Type :=
| Normal
| SetOpen                                  (* just after [[] *)
| SetBody (neg : bool) (members : string). (* members read so far, reversed *)

Record pstate : Type := PState {
  ps_frame : frame;
  ps_outer : list frame;
  ps_next : nat;
  ps_mode : mode
}.

Definition mk_seq (items : list regex) : regex :=
  fold_right RSeq REmpty (rev items).

Definition mk_alt (alts : list regex) (last : regex) : regex :=
  fold_left (fun acc r => RAlt r acc) alts last.

Definition close_frame (f : frame) : regex :=
  mk_alt (f_alts f) (mk_seq (f_cur f)).

Definition push_item (r : regex) (f : frame) : frame :=
  Frame (f_group f) (f_alts f) (r :: f_cur f).

Fixpoint nullable (r : regex) : bool :=
  match r with
  | RChar _ | RAny | RIn _ | RNotIn _ => false
  | RBol | REol | REmpty => true
  | RSeq r1 r2 => nullable r1 && nullable r2
  | RAlt r1 r2 => nullable r1 || nullable r2
  | RStar _ | ROpt _ => true
  | RPlus r1 => nullable r1
  | RGroup _ r1 => nullable r1
  end.

Definition is_anchor (r : regex) : bool :=
  match r with RBol | REol => true | _ => false end.

Definition is_repeat (r : regex) : bool :=
  match r with RStar _ | RPlus _ | ROpt _ => true | _ => false end.

Definition srev (s : string) : string :=
  string_of_list_ascii (rev (list_ascii_of_string s)).

(** What one character does to the parser. *)
Definition quantify (q : regex -> regex) (is_question : bool) (st : pstate)
  : pstate + failure :=
  let f := ps_frame st in
  match f_cur f with
  | [] =>
      match f_group f, f_alts f with
      | Some _, [] => if is_question then inr Unsupported else inr Invalid
      | _, _ => inr Invalid                      (* nothing to repeat *)
      end
  | r :: rest =>
      if is_anchor r then inr Invalid            (* nothing to repeat *)
      else if is_repeat r then inr Unsupported
      else if nullable r then inr Unsupported
      else inl (PState (Frame (f_group f) (f_alts f) (q r :: rest))
                       (ps_outer st) (ps_next st) Normal)
  end.

Definition step_normal (c : ascii) (st : pstate) : pstate + failure :=
  let f := ps_frame st in
  let keep f' := inl (PState f' (ps_outer st) (ps_next st) Normal) in
  if Ascii.eqb c "(" then
    inl (PState (Frame (Some (ps_next st)) [] []) (f :: ps_outer st)
                (S (ps_next st)) Normal)
  else if Ascii.eqb c ")" then
    match ps_outer st, f_group f with
    | parent :: outer, Some n =>
        inl (PState (push_item (RGroup n (close_frame f)) parent) outer
                    (ps_next st) Normal)
    | _, _ => inr Invalid                        (* unbalanced parenthesis *)
    end
  else if Ascii.eqb c "|" then
    keep (Frame (f_group f) (mk_seq (f_cur f) :: f_alts f) [])
  else if Ascii.eqb c "*" then quantify RStar false st
  else if Ascii.eqb c "+" then quantify RPlus false st
  else if Ascii.eqb c "?" then quantify ROpt true st
  else if Ascii.eqb c "[" then
    inl (PState f (ps_outer st) (ps_next st) SetOpen)
  else if Ascii.eqb c "." then keep (push_item RAny f)
  else if Ascii.eqb c "^" then keep (push_item RBol f)
  else if Ascii.eqb c "$" then keep (push_item REol f)
  else if Ascii.eqb c "\" || Ascii.eqb c "{" || Ascii.eqb c "}" then
    inr Unsupported
  else keep (push_item (RChar c) f).

Definition step_set (neg : bool) (members : string) (c : ascii) (st : pstate)
  : pstate + failure :=
  if Ascii.eqb c "]" then
    match members with
    | EmptyString => inr Unsupported
    | _ =>
        let r := if neg then RNotIn (srev members) else RIn (srev members) in
        inl (PState (push_item r (ps_frame st)) (ps_outer st) (ps_next st) Normal)
    end
  else if Ascii.eqb c "\" || Ascii.eqb c "[" || Ascii.eqb c "-" then
    inr Unsupported
  else
    inl (PState (ps_frame st) (ps_outer st) (ps_next st)
                (SetBody neg (String c members))).

Definition step (c : ascii) (st : pstate) : pstate + failure :=
  match ps_mode st with
  | Normal => step_normal c st
  | SetOpen =>
      if Ascii.eqb c "^" then
        inl (PState (ps_frame st) (ps_outer st) (ps_next st) (SetBody true EmptyString))
      else step_set false EmptyString c st
  | SetBody neg members => step_set neg members c st
  end.

Definition finish (st : pstate) : compiled :=
  match ps_mode st, ps_outer st with
  | Normal, [] => Compiled (close_frame (ps_frame st)) (ps_next st - 1)
  | _, _ => Failed Invalid   (* missing parenthesis, unterminated set *)
  end.

Fixpoint parse (pattern : string) (st : pstate) : compiled :=
  match pattern with
  | EmptyString => finish st
  | String c rest =>
      match step c st with
      | inl st' => parse rest st'
      | inr why => Failed why
      end
  end.

Definition initial : pstate := PState (Frame None [] []) [] 1 Normal.

(** [re.compile(pattern)] *)
Definition compile (pattern : string) : compiled := parse pattern initial.

(** The parser state after a prefix of the pattern. *)
Fixpoint feed (s : string) (st : pstate) : pstate + failure :=
  match s with
  | EmptyString => inl st
  | String c s' =>
      match step c st with
      | inl st' => feed s' st'
      | inr why => inr why
      end
  end.

(** The characters that have a meaning of their own in a pattern; a
    text without them is a pattern that matches just that text. *)
Definition special (c : ascii) : bool := Str.mem c ".^$*+?{}[]\|()".

Fixpoint plain (s : string) : bool :=
  match s with
  | EmptyString => true
  | String c s' => negb (special c) && plain s'
  end.

Fixpoint lits (s : string) : list regex :=
  match s with
  | EmptyString => []
  | String c s' => RChar c :: lits s'
  end.

(** What [^base/([^/]+)$] compiles to when [base] is plain. *)
Definition plain_route (base : string) : regex :=
  fold_right RSeq REmpty
    (RBol :: lits base
       ++ [RChar "/"; RGroup 1 (RSeq (RPlus (RNotIn "/")) REmpty); REol]).

(** *** Matching: backtracking, greedy, leftmost alternative first *)

(** Group number, start and end offset of its last capture; the most
    recent binding comes first. *)
Definition captures : Type := list (nat * (nat * nat)).

(** What remains to be matched after a sub-pattern: offset reached,
    rest of the subject, captures so far. *)
Definition cont : Type := nat -> string -> captures -> option captures.

Definition at_end (s : string) : bool :=
  match s with
  | EmptyString => true
  | String c EmptyString => Ascii.eqb c Str.newline
  | _ => false
  end.

Definition one_char (ok : ascii -> bool) (pos : nat) (s : string)
    (cs : captures) (k : cont) : option captures :=
  match s with
  | String c s' => if ok c then k (S pos) s' cs else None
  | EmptyString => None
  end.

(** Greedy repetition of [body]: one more round first, the rest of the
    pattern when that fails.  A round that consumes nothing is not
    taken; [fuel] bounds the rounds by the length of the subject. *)
Fixpoint star_loop (body : nat -> string -> captures -> cont -> option captures)
    (fuel : nat) (pos : nat) (s : string) (cs : captures) (k : cont)
  : option captures :=
  match fuel with
  | O => k pos s cs
  | S fuel' =>
      match body pos s cs
              (fun pos' s' cs' =>
                 if pos <? pos' then star_loop body fuel' pos' s' cs' k
                 else None)
      with
      | Some found => Some found
      | None => k pos s cs
      end
  end.

Fixpoint run (r : regex) (pos : nat) (s : string) (cs : captures) (k : cont)
  {struct r} : option captures :=
  match r with
  | RChar c => one_char (Ascii.eqb c) pos s cs k
  | RAny => one_char (fun c => negb (Ascii.eqb c Str.newline)) pos s cs k
  | RIn members => one_char (fun c => Str.mem c members) pos s cs k
  | RNotIn members => one_char (fun c => negb (Str.mem c members)) pos s cs k
  | RBol => if pos =? 0 then k pos s cs else None
  | REol => if at_end s then k pos s cs else None
  | REmpty => k pos s cs
  | RSeq r1 r2 => run r1 pos s cs (fun pos' s' cs' => run r2 pos' s' cs' k)
  | RAlt r1 r2 =>
      match run r1 pos s cs k with
      | Some found => Some found
      | None => run r2 pos s cs k
      end
  | RStar r1 => star_loop (run r1) (String.length s) pos s cs k
  | RPlus r1 =>
      run r1 pos s cs
        (fun pos' s' cs' => star_loop (run r1) (String.length s') pos' s' cs' k)
  | ROpt r1 =>
      match run r1 pos s cs k with
      | Some found => Some found
      | None => k pos s cs
      end
  | RGroup n r1 =>
      run r1 pos s cs (fun pos' s' cs' => k pos' s' ((n, (pos, pos')) :: cs'))
  end.

(** A match object: the subject, the captures and the number of
    groups of the pattern. *)
Record match_object : Type := Match {
  m_string : string;
  m_captures : captures;
  m_groups : nat
}.

Fixpoint lookup_group (n : nat) (cs : captures) : option (nat * nat) :=
  match cs with
  | [] => None
  | (g, span) :: cs' => if g =? n then Some span else lookup_group n cs'
  end.

(** [re.match(pattern, s)]: a match anchored at the start of [s],
    [None] when there is none. *)
Definition re_match (pattern s : string) : result (option match_object) :=
  match compile pattern with
  | Compiled r ngroups =>
      Ok (match run r 0 s [] (fun _ _ cs => Some cs) with
          | Some cs => Some (Match s cs ngroups)
          | None => None
          end)
  | Failed Invalid => Raise ReError
  | Failed Unsupported => Raise OutsideFragment
  end.

(** [m.group(n)] for [n >= 1]: the text of the group, [None] when the
    group took no part in the match. *)
Definition group (m : match_object) (n : nat) : result (option string) :=
  if m_groups m <? n then Raise IndexError
  else
    Ok (match lookup_group n (m_captures m) with
        | Some (i, j) => Some (Str.slice i j (m_string m))
        | None => None
        end).

End Re.

(** ** [string.Template] with the default delimiter and identifier pattern *)

Module Template.

Inductive part : Type :=
| Text (c : ascii)       (* a character copied as it is *)
| Named (id : string)    (* [$id] *)
| Braced (id : string).  (* [${id}] *)

Definition is_letter (c : ascii) : bool :=
  let n := nat_of_ascii c in
  ((65 <=? n) && (n <=? 90)) || ((97 <=? n) && (n <=? 122)).

Definition is_digit (c : ascii) : bool :=
  let n := nat_of_ascii c in (48 <=? n) && (n <=? 57).

(** [[_a-z]] and [[_a-z0-9]], letters of either case *)
Definition id_start (c : ascii) : bool := Ascii.eqb c "_" || is_letter c.
Definition id_char (c : ascii) : bool := id_start c || is_digit c.

Inductive scan_mode : Type :=
| Plain
| Dollar                  (* a [$] was read *)
| Ident (acc : string)    (* [$] and the identifier so far, reversed *)
| Brace (acc : string).   (* [${] and the identifier so far, reversed *)

Fixpoint texts (s : string) : list part :=
  match s with
  | EmptyString => []
  | String c s' => Text c :: texts s'
  end.

(** The parts of a template.  [$$] is an escaped dollar; a dollar
    that starts neither an identifier nor a braced identifier stands
    for itself. *)
Fixpoint scan (s : string) (m : scan_mode) : list part :=
  match s with
  | EmptyString =>
      match m with
      | Plain => []
      | Dollar => [Text "$"]
      | Ident acc => [Named (Re.srev acc)]
      | Brace acc => Text "$" :: Text "{" :: texts (Re.srev acc)
      end
  | String c s' =>
      let plain := if Ascii.eqb c "$" then scan s' Dollar
                   else Text c :: scan s' Plain in
      match m with
      | Plain => plain
      | Dollar =>
          if Ascii.eqb c "$" then Text "$" :: scan s' Plain
          else if id_start c then scan s' (Ident (String c EmptyString))
          else if Ascii.eqb c "{" then scan s' (Brace EmptyString)
          else Text "$" :: plain
      | Ident acc =>
          if id_char c then scan s' (Ident (String c acc))
          else Named (Re.srev acc) :: plain
      | Brace acc =>
          match acc with
          | EmptyString =>
              if id_start c then scan s' (Brace (String c acc))
              else Text "$" :: Text "{" :: plain
          | _ =>
              if Ascii.eqb c "}" then Braced (Re.srev acc) :: scan s' Plain
              else if id_char c then scan s' (Brace (String c acc))
              else Text "$" :: Text "{" :: (texts (Re.srev acc) ++ plain)
          end
      end
  end.

(** [string.Template(s)] *)
Definition template (s : string) : list part := scan s Plain.

(** Keyword arguments, [(name, value)] in call order. *)
Definition mapping : Type := list (string * string).

Fixpoint lookup (id : string) (kw : mapping) : option string :=
  match kw with
  | [] => None
  | (k, v) :: kw' => if String.eqb k id then Some v else lookup id kw'
  end.

Definition render (kw : mapping) (p : part) : string :=
  match p with
  | Text c => String c EmptyString
  | Named id =>
      match lookup id kw with
      | Some v => v
      | None => String "$" id
      end
  | Braced id =>
      match lookup id kw with
      | Some v => v
      | None => String "$" (String "{" (id +:+ "}"))
      end
  end.

(** [t.safe_substitute] with keyword arguments: substituted values are not scanned
    again, placeholders without a value stay. *)
Definition safe_substitute (t : list part) (kw : mapping) : string :=
  Str.join (map (render kw) t).

End Template.

(** ** Module-level constants of [index.py] *)

Definition ANCHOR : list Template.part :=
  Template.template
    ("<a href=" +:+ Str.dquote +:+ "$href" +:+ Str.dquote +:+ ">$name</a><br>").

Definition INDEX : list Template.part :=
  Template.template
    ("<!DOCTYPE html><html><head><title>$title</title></head>"
     +:+ "<body><h1>$title</h1>$anchors</body></html>").

(** The process environment, as far as [index.py] reads it.  The bucket
    name is required configuration; the time-to-live variable, when set,
    holds an integer. *)
Record environ : Type := Environ {
  env_BASE_PATH : option string;
  env_S3_BUCKET : string;
  env_S3_PRESIGNED_URL_TTL : option Z
}.

(** [os.getenv('BASE_PATH', '').strip('/')] *)
Definition BASE_PATH (env : environ) : string :=
  Str.strip "/" (default EmptyString (env_BASE_PATH env)).

Definition S3_BUCKET (env : environ) : string := env_S3_BUCKET env.

(** [int(os.getenv('S3_PRESIGNED_URL_TTL', '900'))] *)
Definition S3_PRESIGNED_URL_TTL (env : environ) : Z :=
  default 900%Z (env_S3_PRESIGNED_URL_TTL env).

(** ** The object store *)

Definition bytes : Type := list ascii.

(** [str.encode()] and [bytes.decode()]: UTF-8, strict. *)
Definition utf8_encode_char (c : ascii) : bytes :=
  let n := N_of_ascii c in
  if (n <? 128)%N then [c]
  else [ascii_of_N (192 + n / 64); ascii_of_N (128 + n mod 64)].

Definition encode (s : string) : bytes :=
  flat_map utf8_encode_char (list_ascii_of_string s).

(** Well-formedness of the bytes after the first one of a sequence. *)
Definition continuation (d : ascii) : bool :=
  let m := N_of_ascii d in (128 <=? m)%N && (m <? 192)%N.

Definition second_of_three (n : N) (d : ascii) : bool :=
  let m := N_of_ascii d in
  if (n =? 224)%N then (160 <=? m)%N && (m <? 192)%N        (* no overlong form *)
  else if (n =? 237)%N then (128 <=? m)%N && (m <? 160)%N   (* no surrogate *)
  else continuation d.

Definition second_of_four (n : N) (d : ascii) : bool :=
  let m := N_of_ascii d in
  if (n =? 240)%N then (144 <=? m)%N && (m <? 192)%N        (* no overlong form *)
  else if (n =? 244)%N then (128 <=? m)%N && (m <? 144)%N   (* up to U+10FFFF *)
  else continuation d.

(** The text of well-formed UTF-8; [None] stands for a well-formed text
    with a code point beyond 255, which a [string] here cannot hold. *)
Fixpoint utf8_scan (b : bytes) : result (option string) :=
  let narrow c r := result_bind r (fun o => Ok (option_map (String c) o)) in
  let wide r := result_bind r (fun _ : option string => Ok None) in
  match b with
  | [] => Ok (Some EmptyString)
  | c :: rest =>
      let n := N_of_ascii c in
      if (n <? 128)%N then narrow c (utf8_scan rest)
      else if (n <? 194)%N then Raise UnicodeDecodeError
      else if (n <? 224)%N then
        match rest with
        | d :: rest' =>
            if continuation d then
              if (n <? 196)%N then
                narrow (ascii_of_N ((n - 192) * 64 + (N_of_ascii d - 128)))
                       (utf8_scan rest')
              else wide (utf8_scan rest')
            else Raise UnicodeDecodeError
        | _ => Raise UnicodeDecodeError
        end
      else if (n <? 240)%N then
        match rest with
        | d :: e :: rest' =>
            if second_of_three n d && continuation e then wide (utf8_scan rest')
            else Raise UnicodeDecodeError
        | _ => Raise UnicodeDecodeError
        end
      else if (n <? 245)%N then
        match rest with
        | d :: e :: g :: rest' =>
            if second_of_four n d && continuation e && continuation g
            then wide (utf8_scan rest')
            else Raise UnicodeDecodeError
        | _ => Raise UnicodeDecodeError
        end
      else Raise UnicodeDecodeError
  end.

Definition decode (b : bytes) : result string :=
  match utf8_scan b with
  | Ok (Some s) => Ok s
  | Ok None => Raise OutsideFragment
  | Raise e => Raise e
  end.

(** One page of a [list_objects] response.  Either list may be missing
    from the page; every entry of [Contents] carries its [Key] and every
    entry of [CommonPrefixes] its [Prefix]. *)
Record s3_object : Type := S3Object { Key : string }.
Record common_prefix : Type := CommonPrefix { Prefix : string }.
Record page : Type := Page {
  Contents : option (list s3_object);
  CommonPrefixes : option (list common_prefix)
}.

(** Calls on the S3 client and on its paginator, with their arguments.
    [ListObjects] stands for one call of [paginate], not for the
    [list_objects] requests the paginator then sends, one for each page
    it is asked for: the log says that a listing was started and with
    which arguments, not how many requests it took. *)
Inductive s3_call : Type :=
| ListObjects (bucket : string) (prefix delimiter : option string)
| GetObject (bucket key : string)
| PutObject (bucket key : string) (body : bytes)
| GeneratePresignedUrl (client_method : string) (expires_in : Z)
    (http_method : string) (bucket key : string).

(** The store the handlers talk to: the objects of the bucket, the
    pages its paginator yields for a prefix and a delimiter, the URL
    its signer returns for a request, and the calls made so far, oldest
    first.  The pages are what the service answers, whatever the objects
    are.  Of the failures of the service only the missing key of
    [get_object] is part of the model. *)
Record world : Type := World {
  objects : gmap string bytes;
  listing : option string -> option string -> list page;
  signer : string -> Z -> string -> string -> string -> string;
  calls : list s3_call
}.

(** ** Computations against the store *)

Definition M (A : Type) : Type := world -> result A * world.

Definition ret {A} (a : A) : M A := fun w => (Ok a, w).
Definition raise {A} (e : exn) : M A := fun w => (Raise e, w).
Definition bind {A B} (m : M A) (f : A -> M B) : M B :=
  fun w =>
    match m w with
    | (Ok a, w') => f a w'
    | (Raise e, w') => (Raise e, w')
    end.
Definition lift {A} (r : result A) : M A := fun w => (r, w).

Notation "x <- m ;; k" := (bind m (fun x => k))
  (at level 100, m at next level, right associativity).

(** The world after further client calls. *)
Definition logged (cs : list s3_call) (w : world) : world :=
  World (objects w) (listing w) (signer w) (calls w ++ cs).

Definition log (c : s3_call) : M unit := fun w => (Ok tt, logged [c] w).

Fixpoint mapM {A B} (f : A -> M B) (l : list A) : M (list B) :=
  match l with
  | [] => ret []
  | a :: l' => b <- f a ;; bs <- mapM f l' ;; ret (b :: bs)
  end.

(** ** Responses *)

(** A Lambda proxy response: a dictionary with the key [statusCode] and,
    depending on the constructor, [headers] and [body]. *)
Record response : Type := Response {
  body : option string;
  headers : option (gmap string string);
  statusCode : Z
}.

(** An API Gateway proxy event, as far as the handlers read it. *)
Record event : Type := Event {
  httpMethod : option string;
  path : option string
}.

(** [proxy_reponse(body, content_type=None)] *)
Definition proxy_reponse (html : string) (content_type : option string) : response :=
  let content_type :=
    if Str.truthy content_type then default EmptyString content_type
    else "text/html" in
  Response (Some html)
           (Some {[ "Content-Type" := content_type +:+ "; charset=UTF-8" ]})
           200.

(** [redirect(path)] *)
Definition redirect (location : string) : response :=
  Response None (Some {[ "Location" := location ]}) 301.

(** [reject(status_code)] *)
Definition reject (status_code : Z) : response :=
  Response None None status_code.

(** ** Handlers *)

Section Handlers.

Variable env : environ.

(** [S3_PAGINATOR.paginate(Bucket=S3_BUCKET, ...)], drained: all the
    pages of the listing.  One entry of the log for the whole listing,
    however many pages, hence requests, it has. *)
Definition paginate (prefix delimiter : option string) : M (list page) :=
  _ <- log (ListObjects (S3_BUCKET env) prefix delimiter) ;;
  fun w => (Ok (listing w prefix delimiter), w).

(** [S3.get_object(Bucket=S3_BUCKET, Key=key)['Body'].read()] *)
Definition get_object (key : string) : M bytes :=
  _ <- log (GetObject (S3_BUCKET env) key) ;;
  fun w =>
    match objects w !! key with
    | Some content => (Ok content, w)
    | None => (Raise NoSuchKey, w)
    end.

(** [S3.put_object(Bucket=S3_BUCKET, Key=key, Body=content)] *)
Definition put_object (key : string) (content : bytes) : M unit :=
  _ <- log (PutObject (S3_BUCKET env) key content) ;;
  fun w =>
    (Ok tt, World (<[ key := content ]> (objects w)) (listing w) (signer w) (calls w)).

(** [S3.generate_presigned_url(method, ExpiresIn=, HttpMethod=, Params=)] *)
Definition generate_presigned_url (client_method : string) (expires_in : Z)
    (http_method : string) (bucket key : string) : M string :=
  _ <- log (GeneratePresignedUrl client_method expires_in http_method bucket key) ;;
  fun w => (Ok (signer w client_method expires_in http_method bucket key), w).

(** [presign(key)] *)
Definition presign (key : string) : M string :=
  url <- generate_presigned_url "get_object" (S3_PRESIGNED_URL_TTL env) "GET"
           (S3_BUCKET env) key ;;
  ret url.

(** [get_index()] *)
Definition get_index : M response :=
  index <- get_object "index.html" ;;
  html <- lift (decode index) ;;
  let res := proxy_reponse html None in
  ret res.

(** [[key.get('Key') for page in pages for key in page.get('Contents') or []]]:
    the keys of all pages, in order; a page without [Contents] has none. *)
Definition page_keys (pages : list page) : list string :=
  flat_map (fun pg => map Key (default [] (Contents pg))) pages.

(** [ANCHOR.safe_substitute(href=href, name=name)] for a pair of [zip] *)
Definition render_anchor (href_name : string * string) : string :=
  Template.safe_substitute ANCHOR
    [("href", fst href_name); ("name", snd href_name)].

(** [INDEX.safe_substitute(title=title, anchors=anchors)] *)
Definition render_index (title anchors : string) : string :=
  Template.safe_substitute INDEX [("title", title); ("anchors", anchors)].

(** [get_package_index(name)] *)
Definition get_package_index (name : string) : M response :=
  pages <- paginate (Some (name +:+ "/")) None ;;
  let keys := page_keys pages in
  hrefs <- mapM presign keys ;;
  let names := map (fun x => snd (os_path_split x)) keys in
  let anchors := map render_anchor (combine hrefs names) in
  let html := render_index ("Links for " +:+ name) (Str.join anchors) in
  let resp := proxy_reponse html None in
  ret resp.

(** [re.match(pattern, path).group(1)], with [AttributeError] caught:
    [None] when the path does not match. *)
Definition match_group1 (pattern p : string) : result (option string) :=
  match Re.re_match pattern p with
  | Ok (Some m) => Re.group m 1
  | Ok None => Ok None          (* [None.group] raises, [except] answers *)
  | Raise AttributeError => Ok None
  | Raise e => Raise e
  end.

(** [f'^{BASE_PATH}/([^/]+)$'] *)
Definition route_pattern : string := "^" +:+ BASE_PATH env +:+ "/([^/]+)$".

(** [get_response(path)] *)
Definition get_response (p : string) : M response :=
  name <- lift (match_group1 route_pattern p) ;;
  if Str.truthy name then get_package_index (default EmptyString name)
  else if String.eqb (BASE_PATH env) p then get_index
  else if String.eqb EmptyString p then ret (redirect ("/" +:+ BASE_PATH env))
  else ret (reject 403).

(** Equality of two values that are strings or [None], as [in] tests it. *)
Definition opt_string_eqb (a b : option string) : bool :=
  match a, b with
  | Some x, Some y => String.eqb x y
  | None, None => true
  | _, _ => false
  end.

(** [proxy_request(event)].  The [print] calls only write to the log
    of the function and are left out. *)
Definition proxy_request (ev : event) : M response :=
  let method := httpMethod ev in
  p <- match path ev with
       | Some p => ret (Str.strip "/" p)
       | None => raise AttributeError
       end ;;
  res <- (if existsb (opt_string_eqb method) [Some "GET"; Some "HEAD"]
          then get_response p
          else ret (reject 403)) ;;
  ret res.

(** [x.get('Prefix').strip('/') for page in pages
    for x in page.get('CommonPrefixes')]: the package names of all
    pages, in order; iterating over the missing [CommonPrefixes] of a
    page raises. *)
Fixpoint page_pkgs (pages : list page) : result (list string) :=
  match pages with
  | [] => Ok []
  | pg :: pages' =>
      match CommonPrefixes pg with
      | None => Raise TypeError
      | Some xs =>
          result_bind (page_pkgs pages')
            (fun pkgs => Ok (map (fun x => Str.strip "/" (Prefix x)) xs ++ pkgs))
      end
  end.

(** [reindex_bucket(event)].  The generators [pkgs] and [anchors] are
    consumed by [join], before the upload. *)
Definition reindex_bucket (ev : event) : M unit :=
  pages <- paginate None (Some "/") ;;
  pkgs <- lift (page_pkgs pages) ;;
  let anchors := map (fun pkg => render_anchor (pkg, pkg)) pkgs in
  let html := render_index "Simple index" (Str.join anchors) in
  res <- put_object "index.html" (encode html) ;;
  ret res.

End Handlers.


(** ** Vocabulary of the statements *)

(** The URL the signer of [w] returns for [presign(key)], and the
    client call that asks for it. *)
Definition presigned_url (env : environ) (w : world) (key : string) : string :=
  signer w "get_object" (S3_PRESIGNED_URL_TTL env) "GET" (S3_BUCKET env) key.

Definition presign_call (env : environ) (key : string) : s3_call :=
  GeneratePresignedUrl "get_object" (S3_PRESIGNED_URL_TTL env) "GET"
    (S3_BUCKET env) key.

(** [os.path.split(key)[-1]] *)
Definition basename (key : string) : string := snd (os_path_split key).

(** One anchor per key, in the order of the keys. *)
Definition package_anchors (env : environ) (w : world) (keys : list string)
  : list string :=
  map (fun k => render_anchor (presigned_url env w k, basename k)) keys.

Definition package_page (name : string) (anchors : list string) : response :=
  proxy_reponse (render_index ("Links for " +:+ name) (Str.join anchors)) None.

(** The common prefixes of all pages, in order. *)
Definition page_prefixes (pages : list page) : list common_prefix :=
  flat_map (fun pg => default [] (CommonPrefixes pg)) pages.

Definition pkg_name (x : common_prefix) : string := Str.strip "/" (Prefix x).

Definition root_page (pkgs : list string) : string :=
  render_index "Simple index"
    (Str.join (map (fun pkg => render_anchor (pkg, pkg)) pkgs)).

(** A [GET] request for a raw path. *)
Definition get_request (raw : string) : event := Event (Some "GET") (Some raw).

(** ** Concrete configurations and stores *)

Definition demo_signer (m : string) (ttl : Z) (h b k : string) : string :=
  "https://" +:+ b +:+ ".s3.amazonaws.com/" +:+ k +:+ "?X-Amz-Signature=0".

(** Three pages for the prefix [foo/]: keys out of alphabetical order,
    a page without [Contents], and a key that occurs twice. *)
Definition demo_pages : list page :=
  [ Page (Some [S3Object "foo/foo-1.0.tar.gz";
                S3Object "foo/foo-0.9-py3-none-any.whl"]) None;
    Page None None;
    Page (Some [S3Object "foo/foo-1.0.tar.gz"]) None ].

Definition demo_prefixes : list page :=
  [ Page None (Some [CommonPrefix "a/"; CommonPrefix "b/"]);
    Page None (Some [CommonPrefix "c/"]) ].

(** A bucket whose cached index is out of date. *)
Definition demo_world : world :=
  World {[ "index.html" := encode "stale" ]}
        (fun prefix delimiter =>
           match prefix, delimiter with
           | Some "foo/", None => demo_pages
           | Some _, None => [Page None None]
           | None, Some "/" => demo_prefixes
           | _, _ => []
           end)
        demo_signer [].

(** An empty bucket: every listing is one page without entries. *)
Definition empty_bucket : world :=
  World ∅ (fun _ _ => [Page None None]) demo_signer [].

(** The root listing of a bucket with the packages [a], [b], [c] and
    the cached index, in two pages: the three common prefixes on the
    first, the key [index.html], which sorts after them, alone on the
    second.  The second page has [Contents] and no [CommonPrefixes]. *)
Definition split_prefixes : list page :=
  [ Page None (Some [CommonPrefix "a/"; CommonPrefix "b/"; CommonPrefix "c/"]);
    Page (Some [S3Object "index.html"]) None ].

Definition split_world : world :=
  World {[ "index.html" := encode "stale" ]}
        (fun prefix delimiter =>
           match prefix, delimiter with
           | None, Some "/" => split_prefixes
           | _, _ => [Page None None]
           end)
        demo_signer [].

Definition env_simple : environ := Environ (Some "/simple/") "pypi" None.
Definition env_no_base : environ := Environ None "pypi" None.
Definition env_wildcard : environ := Environ (Some ".*") "pypi" None.
Definition env_paren : environ := Environ (Some "(") "pypi" None.


(** ** Vocabulary of the further statements *)

(** [s] does not start with a character of [chars]. *)
Definition head_ok (chars s : string) : bool :=
  match s with
  | EmptyString => true
  | String c _ => negb (Str.mem c chars)
  end.

(** [s] does not end with a character of [chars]. *)
Fixpoint last_ok (chars s : string) : bool :=
  match s with
  | EmptyString => true
  | String c EmptyString => negb (Str.mem c chars)
  | String _ s' => last_ok chars s'
  end.

(** The segment after [base/], when [p] is [base/seg] with [seg] not
    empty and free of slashes. *)
Definition segment_after (base p : string) : option string :=
  match Str.drop_prefix (base +:+ "/") p with
  | Some seg =>
      if Str.truthy (Some seg) && negb (Str.mem "/" seg) then Some seg else None
  | None => None
  end.

(** The router written with a prefix test in place of the regular
    expression: the reading of [get_response] for a base path that the
    pattern takes literally. *)
Definition route_by_prefix (env : environ) (p : string) : M response :=
  match segment_after (BASE_PATH env) p with
  | Some name => get_package_index env name
  | None =>
      if String.eqb (BASE_PATH env) p then get_index env
      else if String.eqb EmptyString p then ret (redirect ("/" +:+ BASE_PATH env))
      else ret (reject 403)
  end.

(** Uploads among the client calls. *)
Definition is_put (c : s3_call) : bool :=
  match c with PutObject _ _ _ => true | _ => false end.

(** The client calls apart from the listings, whose number of requests
    the log does not record. *)
Definition is_listing (c : s3_call) : bool :=
  match c with ListObjects _ _ _ => true | _ => false end.

Definition other_calls (cs : list s3_call) : list s3_call :=
  List.filter (fun c => negb (is_listing c)) cs.

(** A bucket whose cached index is not UTF-8, and one whose cached index
    is the root page of the packages [a] and [b]. *)
Definition bad_index : world :=
  World {[ "index.html" := [ascii_of_nat 255] ]} (fun _ _ => [Page None None])
        demo_signer [].

Definition fresh_index : world :=
  World {[ "index.html" := encode (root_page ["a"; "b"]) ]}
        (fun _ _ => [Page None None]) demo_signer [].


(** * Facts *)

(** Closed statements are settled by evaluation. *)
Ltac by_evaluation := vm_compute; reflexivity.

(** ** Strings *)

Lemma append_cons (c : ascii) (a b : string) :
  String c a +:+ b = String c (a +:+ b).
Proof. reflexivity. Qed.

Lemma append_nil_l (a : string) : EmptyString +:+ a = a.
Proof. reflexivity. Qed.

Lemma append_assoc (a b c : string) : (a +:+ b) +:+ c = a +:+ (b +:+ c).
Proof.
  induction a as [|x a IH]; [reflexivity |].
  rewrite !append_cons. now f_equal.
Qed.

Lemma append_nil_r (a : string) : a +:+ EmptyString = a.
Proof.
  induction a as [|x a IH]; [reflexivity |].
  rewrite append_cons. now f_equal.
Qed.

Lemma length_append (a b : string) :
  String.length (a +:+ b) = String.length a + String.length b.
Proof.
  induction a as [|x a IH]; [reflexivity |].
  rewrite append_cons. cbn. now f_equal.
Qed.

Lemma mem_cons (c d : ascii) (s : string) :
  Str.mem c (String d s) = Ascii.eqb c d || Str.mem c s.
Proof. reflexivity. Qed.

Lemma mem_append (c : ascii) (a b : string) :
  Str.mem c (a +:+ b) = Str.mem c a || Str.mem c b.
Proof.
  induction a as [|x a IH]; [reflexivity |].
  rewrite append_cons, !mem_cons, IH. now rewrite orb_assoc.
Qed.

Lemma slice_empty (i j : nat) : Str.slice i j EmptyString = EmptyString.
Proof. unfold Str.slice. destruct i, (j - _); reflexivity. Qed.

Lemma drop_prefix_append (p s : string) : Str.drop_prefix p (p +:+ s) = Some s.
Proof.
  induction p as [|c p IH]; [reflexivity |].
  rewrite append_cons. cbn. now rewrite Ascii.eqb_refl.
Qed.

Lemma substring_skip (a : string) : forall (n : nat) (b : string),
  String.substring (String.length a) n (a +:+ b) = String.substring 0 n b.
Proof. induction a as [|c a IH]; intros n b; [reflexivity | apply IH]. Qed.

Lemma substring_all (s : string) : String.substring 0 (String.length s) s = s.
Proof. induction s as [|c s IH]; [reflexivity | cbn; now f_equal]. Qed.

Lemma eqb_append_slash (base rest : string) :
  String.eqb base (base +:+ "/" +:+ rest) = false.
Proof.
  apply String.eqb_neq. intros H.
  apply (f_equal String.length) in H. rewrite !length_append in H. cbn in H. lia.
Qed.

(** ** The templates *)

Lemma render_anchor_html (href name : string) :
  render_anchor (href, name)
  = "<a href=" +:+ Str.dquote +:+ href +:+ Str.dquote +:+ ">" +:+ name +:+ "</a><br>".
Proof. reflexivity. Qed.

Lemma render_index_html (title anchors : string) :
  render_index title anchors
  = "<!DOCTYPE html><html><head><title>" +:+ title +:+ "</title></head><body><h1>"
    +:+ title +:+ "</h1>" +:+ anchors +:+ "</body></html>".
Proof. reflexivity. Qed.

(** Substituted values are copied, not scanned: a placeholder inside a
    value stays as it is. *)
Example substituted_value_not_scanned :
  render_anchor ("$name", "x$$y")
  = "<a href=" +:+ Str.dquote +:+ "$name" +:+ Str.dquote +:+ ">x$$y</a><br>".
Proof. by_evaluation. Qed.

(** ** The parser *)

Section Parser.
Import Re.

Lemma step_plain_char (c : ascii) (f : frame) (outer : list frame) (next : nat) :
  special c = false ->
  step c (PState f outer next Normal)
  = inl (PState (push_item (RChar c) f) outer next Normal).
Proof.
  unfold special. simpl. intros H.
  repeat (apply orb_false_elim in H; destruct H as [? H]).
  unfold step, step_normal; simpl.
  repeat match goal with E : Ascii.eqb _ _ = false |- _ => rewrite E; clear E end.
  reflexivity.
Qed.

Lemma parse_plain (s : string) : forall rest f outer next,
  plain s = true ->
  parse (s +:+ rest) (PState f outer next Normal)
  = parse rest (PState (Frame (f_group f) (f_alts f) (rev (lits s) ++ f_cur f))
                       outer next Normal).
Proof.
  induction s as [|c s IH]; intros rest f outer next Hp.
  - destruct f; reflexivity.
  - simpl in Hp. apply andb_prop in Hp as [Hc Hs].
    apply negb_true_iff in Hc.
    change (String c s +:+ rest) with (String c (s +:+ rest)).
    cbn [parse]. rewrite (step_plain_char _ _ _ _ Hc).
    rewrite IH by assumption. cbn [push_item f_group f_alts f_cur lits rev].
    now rewrite <- app_assoc.
Qed.

Lemma compile_plain_route (base : string) :
  plain base = true ->
  compile ("^" +:+ base +:+ "/([^/]+)$") = Compiled (plain_route base) 1.
Proof.
  intros Hp. unfold compile, initial.
  change ("^" +:+ base +:+ "/([^/]+)$") with (String "^" (base +:+ "/([^/]+)$")).
  cbn [parse]. change (step "^" _) with
    (@inl pstate failure (PState (Frame None [] [RBol]) [] 1 Normal)).
  cbn iota. rewrite parse_plain by assumption.
  cbn. unfold close_frame, mk_alt, mk_seq; cbn.
  unfold plain_route. f_equal.
  rewrite rev_app_distr, rev_involutive. cbn.
  rewrite <- !app_assoc. reflexivity.
Qed.

Lemma parse_append (a : string) : forall b st,
  parse (a +:+ b) st
  = match feed a st with
    | inl st' => parse b st'
    | inr why => Failed why
    end.
Proof.
  induction a as [|c a IH]; intros b st; [reflexivity |].
  rewrite append_cons. cbn [parse feed].
  destruct (step c st); [apply IH | reflexivity].
Qed.

Lemma quantify_next q b st st' :
  quantify q b st = inl st' -> ps_next st' = ps_next st.
Proof.
  unfold quantify. intros H.
  repeat case_match; simplify_eq; reflexivity.
Qed.

(** Group numbers are handed out in increasing order. *)
Lemma step_next c st st' :
  step c st = inl st' -> ps_next st <= ps_next st'.
Proof.
  unfold step, step_normal, step_set. intros H.
  repeat case_match; simplify_eq; cbn; try lia;
    match goal with
    | E : quantify _ _ _ = inl _ |- _ => apply quantify_next in E; lia
    end.
Qed.

Lemma feed_next (s : string) : forall st st',
  feed s st = inl st' -> ps_next st <= ps_next st'.
Proof.
  induction s as [|c s IH]; intros st st' H; cbn in H.
  - now simplify_eq.
  - destruct (step c st) as [st1|] eqn:E; [| discriminate].
    apply step_next in E. apply IH in H. lia.
Qed.

Lemma parse_groups (s : string) : forall st r n,
  parse s st = Compiled r n -> ps_next st - 1 <= n.
Proof.
  induction s as [|c s IH]; intros st r n H; cbn in H.
  - unfold finish in H. repeat case_match; simplify_eq. lia.
  - destruct (step c st) as [st1|] eqn:E; [| discriminate].
    apply step_next in E. apply IH in H. lia.
Qed.

(** Whatever is pasted before [/([^/]+)$], a pattern that compiles has
    a first group. *)
Lemma route_pattern_groups (prefix : string) (r : regex) (n : nat) :
  compile (prefix +:+ "/([^/]+)$") = Compiled r n -> 1 <= n.
Proof.
  unfold compile. rewrite parse_append.
  destruct (feed prefix initial) as [st|] eqn:E; [| discriminate].
  apply feed_next in E. change (ps_next initial) with 1 in E.
  destruct st as [f outer next [| |neg members]]; cbn [ps_next] in E.
  - change (parse "/([^/]+)$" (PState f outer next Normal))
      with (parse "[^/]+)$"
              (PState (Frame (Some next) [] []) (push_item (RChar "/") f :: outer)
                      (S next) Normal)).
    intros H. apply parse_groups in H. cbn [ps_next] in H. lia.
  - intros H. vm_compute in H. discriminate.
  - intros H. vm_compute in H. discriminate.
Qed.

End Parser.

(** ** The matcher *)

Section Matcher.
Import Re.

Lemma run_lits (base : string) : forall tl pos s cs k,
  run (fold_right RSeq REmpty (lits base ++ tl)) pos s cs k
  = match Str.drop_prefix base s with
    | Some s' => run (fold_right RSeq REmpty tl) (pos + String.length base) s' cs k
    | None => None
    end.
Proof.
  induction base as [|c base IH]; intros tl pos s cs k.
  - cbn. now rewrite Nat.add_0_r.
  - cbn. destruct s as [|d s]; [reflexivity |].
    cbn. destruct (Ascii.eqb c d); [| reflexivity].
    rewrite IH. destruct (Str.drop_prefix base s); [| reflexivity].
    now replace (S pos + String.length base) with (pos + S (String.length base)) by lia.
Qed.

Lemma not_slash_char (c : ascii) :
  negb (Str.mem c "/") = negb (Ascii.eqb "/" c).
Proof. cbn -[Ascii.eqb]. now rewrite orb_false_r, Ascii.eqb_sym. Qed.

Lemma run_not_slash_cons pos c s cs (k : cont) :
  run (RNotIn "/") pos (String c s) cs k
  = if negb (Ascii.eqb "/" c) then k (S pos) s cs else None.
Proof. cbn [run one_char]. now rewrite not_slash_char. Qed.

(** Repeating [[^/]] never gets past a slash. *)
Lemma star_not_slash_stuck (k : cont) :
  (forall pos s cs, Str.mem "/" s = true -> k pos s cs = None) ->
  forall fuel pos s cs,
    Str.mem "/" s = true ->
    star_loop (run (RNotIn "/")) fuel pos s cs k = None.
Proof.
  intros Hk. induction fuel as [|fuel IH]; intros pos s cs Hs.
  - now apply Hk.
  - destruct s as [|c s]; [discriminate |].
    cbn [star_loop]. rewrite run_not_slash_cons. rewrite mem_cons in Hs.
    destruct (Ascii.eqb "/" c) eqn:Hc; cbn [negb].
    + apply Hk. now rewrite mem_cons, Hc.
    + cbn [orb] in Hs.
      replace (pos <? S pos) with true by (symmetry; apply Nat.ltb_lt; lia).
      rewrite IH by assumption. apply Hk. now rewrite mem_cons, Hc.
Qed.

Lemma plus_not_slash_stuck (k : cont) :
  (forall pos s cs, Str.mem "/" s = true -> k pos s cs = None) ->
  forall pos s cs,
    Str.mem "/" s = true ->
    run (RPlus (RNotIn "/")) pos s cs k = None.
Proof.
  intros Hk pos s cs Hs.
  destruct s as [|c s]; [discriminate |].
  cbn [run one_char].
  rewrite not_slash_char. rewrite mem_cons in Hs.
  destruct (Ascii.eqb "/" c) eqn:Hc; cbn [negb]; [reflexivity |].
  cbn [orb] in Hs. now apply star_not_slash_stuck.
Qed.

(** Repeating [[^/]] takes a whole text without slashes when the rest
    of the pattern accepts the end of the subject. *)
Lemma star_not_slash_all (k : cont) (s : string) : forall fuel pos cs found,
  Str.mem "/" s = false ->
  String.length s <= fuel ->
  k (pos + String.length s) EmptyString cs = Some found ->
  star_loop (run (RNotIn "/")) fuel pos s cs k = Some found.
Proof.
  induction s as [|c s IH]; intros fuel pos cs found Hs Hfuel Hk.
  - cbn [String.length] in Hk. rewrite Nat.add_0_r in Hk.
    destruct fuel; cbn [star_loop run one_char]; exact Hk.
  - destruct fuel as [|fuel]; [cbn in Hfuel; lia |].
    cbn [star_loop]. rewrite run_not_slash_cons.
    rewrite mem_cons in Hs. apply orb_false_elim in Hs as [Hc Hs].
    rewrite Hc. cbn [negb].
    replace (pos <? S pos) with true by (symmetry; apply Nat.ltb_lt; lia).
    rewrite (IH fuel (S pos) cs found); [reflexivity | assumption | cbn in Hfuel; lia |].
    cbn [String.length] in Hk. now replace (S pos + String.length s)
      with (pos + S (String.length s)) by lia.
Qed.

Lemma at_end_no_slash (s : string) : Str.mem "/" s = true -> at_end s = false.
Proof.
  destruct s as [|c [|d s]]; [discriminate | | reflexivity].
  rewrite mem_cons. cbn [Str.mem at_end]. rewrite orb_false_r.
  intros H. apply Ascii.eqb_eq in H. now subst c.
Qed.

(** With a plain base path, a path with a slash after [base/] does not
    match the route pattern. *)
Lemma plain_route_no_match (base rest : string) :
  Str.mem "/" rest = true ->
  run (plain_route base) 0 (base +:+ "/" +:+ rest) [] (fun _ _ cs => Some cs) = None.
Proof.
  intros Hrest. unfold plain_route.
  cbn [fold_right run]. cbn [Nat.eqb].
  rewrite run_lits, drop_prefix_append.
  cbn [fold_right run]. rewrite append_cons, append_nil_l. cbn [one_char].
  rewrite Ascii.eqb_refl.
  apply plus_not_slash_stuck; [| assumption].
  intros pos s cs Hs. now rewrite at_end_no_slash.
Qed.

End Matcher.

(** ** [re.match(...).group(1)] on the route pattern *)

Section RoutePattern.
Import Re.

Lemma match_group1_empty_base (p : string) :
  p <> EmptyString -> Str.mem "/" p = false ->
  match_group1 "^/([^/]+)$" p = Ok None.
Proof.
  intros Hne Hp. destruct p as [|c p]; [congruence |].
  rewrite mem_cons in Hp. apply orb_false_elim in Hp as [Hc _].
  unfold match_group1, re_match.
  change (compile "^/([^/]+)$") with (Compiled (plain_route EmptyString) 1).
  unfold plain_route. cbn [lits app fold_right run Nat.eqb one_char].
  now rewrite Hc.
Qed.

Lemma match_group1_plain_deep (base rest : string) :
  plain base = true ->
  Str.mem "/" rest = true ->
  match_group1 ("^" +:+ base +:+ "/([^/]+)$") (base +:+ "/" +:+ rest) = Ok None.
Proof.
  intros Hb Hr. unfold match_group1, re_match.
  rewrite compile_plain_route by assumption.
  now rewrite plain_route_no_match.
Qed.

(** With a plain base path, [base/seg] matches and the group is [seg]. *)
Lemma match_group1_plain_segment (base seg : string) :
  plain base = true ->
  seg <> EmptyString ->
  Str.mem "/" seg = false ->
  match_group1 ("^" +:+ base +:+ "/([^/]+)$") (base +:+ "/" +:+ seg) = Ok (Some seg).
Proof.
  intros Hb Hne Hs. unfold match_group1, re_match.
  rewrite compile_plain_route by assumption.
  unfold plain_route. cbn [fold_right run]. cbn [Nat.eqb].
  rewrite run_lits, drop_prefix_append.
  cbn [fold_right run]. rewrite append_cons, append_nil_l. cbn [one_char].
  rewrite Ascii.eqb_refl.
  destruct seg as [|c seg]; [congruence |].
  cbn [one_char]. rewrite not_slash_char.
  rewrite mem_cons in Hs. apply orb_false_elim in Hs as [Hc Hs].
  rewrite Hc. cbn [negb].
  erewrite star_not_slash_all; [| exact Hs | lia | cbn; reflexivity].
  unfold group. cbn [m_groups m_captures m_string lookup_group Nat.ltb Nat.leb Nat.eqb].
  unfold Str.slice. do 2 f_equal.
  change (base +:+ String "/" (String c seg)) with (base +:+ "/" +:+ String c seg).
  rewrite <- (append_assoc base "/" (String c seg)).
  replace (S (String.length base)) with (String.length (base +:+ "/"))
    by (rewrite length_append; cbn; lia).
  rewrite substring_skip.
  replace (_ - _) with (String.length (String c seg))
    by (rewrite length_append; cbn; lia).
  apply substring_all.
Qed.

(** With a plain base path, the base path itself does not match. *)
Lemma match_group1_plain_base (base : string) :
  plain base = true ->
  match_group1 ("^" +:+ base +:+ "/([^/]+)$") base = Ok None.
Proof.
  intros Hb. unfold match_group1, re_match.
  rewrite compile_plain_route by assumption.
  unfold plain_route. cbn [fold_right run]. cbn [Nat.eqb].
  rewrite run_lits.
  rewrite <- (append_nil_r base) at 2. rewrite drop_prefix_append.
  reflexivity.
Qed.

(** The group of a path that ends in a newline includes the newline:
    [$] also matches just before a final newline, but [[^/]+] is greedy. *)
Example group_keeps_final_newline :
  match_group1 "^simple/([^/]+)$" ("simple/foo" +:+ String Str.newline EmptyString)
  = Ok (Some ("foo" +:+ String Str.newline EmptyString)).
Proof. by_evaluation. Qed.

(** A base path with a group of its own takes the number 1. *)
Example group_of_base_path :
  match_group1 "^(a)/([^/]+)$" "a/x" = Ok (Some "a").
Proof. by_evaluation. Qed.

(** An alternation in the base path splits the whole pattern: the
    path matches [^a], and the group of the other branch is [None]. *)
Example alternation_in_base_path :
  match_group1 "^a|b/([^/]+)$" "a|b/x/y" = Ok None.
Proof. by_evaluation. Qed.

Example nothing_to_repeat :
  match_group1 "^*/([^/]+)$" "a/x" = Raise ReError.
Proof. by_evaluation. Qed.

Example group_extension_not_covered :
  match_group1 "^(?:a)/([^/]+)$" "a/x" = Raise OutsideFragment.
Proof. by_evaluation. Qed.

(** On the empty path a match captures nothing but empty text. *)
Lemma match_group1_empty_path (prefix : string) (r : regex) (n : nat) :
  compile (prefix +:+ "/([^/]+)$") = Compiled r n ->
  exists g, match_group1 (prefix +:+ "/([^/]+)$") EmptyString = Ok g /\ Str.truthy g = false.
Proof.
  intros Hc. pose proof (route_pattern_groups _ _ _ Hc) as Hn.
  unfold match_group1, re_match. rewrite Hc.
  destruct (run r 0 EmptyString [] _) as [cs|]; [| now exists None].
  unfold group. cbn [m_groups m_captures m_string].
  replace (n <? 1) with false by (symmetry; apply Nat.ltb_ge; lia).
  destruct (lookup_group 1 cs) as [[i j]|]; [| now exists None].
  exists (Some (Str.slice i j EmptyString)). now rewrite slice_empty.
Qed.

End RoutePattern.

(** ** The handlers *)

Lemma logged_nil (w : world) : logged [] w = w.
Proof. destruct w. unfold logged. cbn. now rewrite app_nil_r. Qed.

Lemma logged_logged (cs1 cs2 : list s3_call) (w : world) :
  logged cs2 (logged cs1 w) = logged (cs1 ++ cs2) w.
Proof. unfold logged. cbn. now rewrite app_assoc. Qed.

Lemma bind_ret_r {A} (m : M A) (w : world) : bind m ret w = m w.
Proof. unfold bind, ret. destruct (m w) as [[a|e] w']; reflexivity. Qed.

Lemma combine_map {A B C} (f : A -> B) (g : A -> C) (l : list A) :
  combine (map f l) (map g l) = map (fun a => (f a, g a)) l.
Proof. induction l as [|a l IH]; cbn; [reflexivity | now rewrite IH]. Qed.

Lemma page_keys_no_contents (pages : list page) :
  Forall (fun pg => Contents pg = None) pages -> page_keys pages = [].
Proof.
  induction 1 as [|pg pages Hpg _ IH]; [reflexivity |].
  unfold page_keys in *. cbn [flat_map]. now rewrite Hpg, IH.
Qed.

Lemma page_pkgs_all_present (pages : list page) :
  Forall (fun pg => CommonPrefixes pg <> None) pages ->
  page_pkgs pages = Ok (map pkg_name (page_prefixes pages)).
Proof.
  induction 1 as [|pg pages Hpg _ IH]; [reflexivity |].
  cbn [page_pkgs page_prefixes flat_map].
  destruct (CommonPrefixes pg) as [xs|]; [| congruence].
  fold (page_prefixes pages). rewrite IH. cbn [result_bind default].
  now rewrite map_app.
Qed.

Lemma page_pkgs_some_missing (pages : list page) :
  Exists (fun pg => CommonPrefixes pg = None) pages ->
  page_pkgs pages = Raise TypeError.
Proof.
  induction pages as [|pg pages IH]; intros H; [inversion H |].
  cbn [page_pkgs]. destruct (CommonPrefixes pg) as [xs|] eqn:E; [| reflexivity].
  inversion H as [? ? Hpg | ? ? Hrest]; subst; [congruence |].
  now rewrite IH.
Qed.

Lemma not_get_or_head (method : option string) :
  method <> Some "GET" -> method <> Some "HEAD" ->
  existsb (opt_string_eqb method) [Some "GET"; Some "HEAD"] = false.
Proof.
  intros Hg Hh. destruct method as [m|]; [| reflexivity].
  cbn [existsb opt_string_eqb].
  destruct (String.eqb_spec m "GET") as [-> |]; [congruence |].
  destruct (String.eqb_spec m "HEAD") as [-> |]; [congruence |].
  reflexivity.
Qed.

Section HandlerFacts.

Variable env : environ.

Lemma presign_spec (key : string) (w : world) :
  presign env key w
  = (Ok (presigned_url env w key), logged [presign_call env key] w).
Proof. reflexivity. Qed.

Lemma mapM_presign (keys : list string) : forall w,
  mapM (presign env) keys w
  = (Ok (map (presigned_url env w) keys), logged (map (presign_call env) keys) w).
Proof.
  induction keys as [|k keys IH]; intros w.
  - cbn. now rewrite logged_nil.
  - cbn [mapM map]. unfold bind at 1. rewrite presign_spec.
    unfold bind at 1. rewrite IH. unfold ret.
    now rewrite logged_logged.
Qed.

(** What [get_package_index] returns and which calls it makes: the
    listing, of however many pages, then one signing call per key, in
    the order of the keys. *)
Lemma get_package_index_spec (name : string) (w : world) :
  let keys := page_keys (listing w (Some (name +:+ "/")) None) in
  get_package_index env name w
  = (Ok (package_page name (package_anchors env w keys)),
     logged (ListObjects (S3_BUCKET env) (Some (name +:+ "/")) None
               :: map (presign_call env) keys) w).
Proof.
  intros keys. unfold get_package_index, paginate.
  unfold bind at 1. unfold bind at 1. unfold log at 1.
  unfold bind at 1.
  rewrite mapM_presign. cbn [logged listing signer objects calls].
  unfold ret. fold keys. f_equal.
  - unfold package_page, package_anchors. do 4 f_equal.
    change (map (fun x => snd (os_path_split x)) keys) with (map basename keys).
    change (map (presigned_url env _) keys) with (map (presigned_url env w) keys).
    now rewrite combine_map, map_map.
  - unfold logged. cbn. now rewrite <- app_assoc.
Qed.

Lemma reindex_bucket_written (ev : event) (w : world) :
  Forall (fun pg => CommonPrefixes pg <> None) (listing w None (Some "/")) ->
  let html := root_page (map pkg_name (page_prefixes (listing w None (Some "/")))) in
  reindex_bucket env ev w
  = (Ok tt,
     World (<[ "index.html" := encode html ]> (objects w)) (listing w) (signer w)
           (calls w ++ [ListObjects (S3_BUCKET env) None (Some "/");
                        PutObject (S3_BUCKET env) "index.html" (encode html)])).
Proof.
  intros Hall html. unfold reindex_bucket, paginate, put_object.
  unfold bind, log, lift, ret, logged. cbn [listing objects signer calls].
  rewrite page_pkgs_all_present by assumption.
  subst html. unfold root_page. now rewrite <- app_assoc.
Qed.

Lemma reindex_bucket_raises (ev : event) (w : world) :
  Exists (fun pg => CommonPrefixes pg = None) (listing w None (Some "/")) ->
  reindex_bucket env ev w
  = (Raise TypeError, logged [ListObjects (S3_BUCKET env) None (Some "/")] w).
Proof.
  intros Hex. unfold reindex_bucket, paginate.
  unfold bind, log, lift. cbn [logged listing objects signer calls].
  now rewrite page_pkgs_some_missing.
Qed.

Lemma proxy_request_get_or_head (method raw : string) (w : world) :
  method = "GET" \/ method = "HEAD" ->
  proxy_request env (Event (Some method) (Some raw)) w
  = get_response env (Str.strip "/" raw) w.
Proof.
  intros [-> | ->]; unfold proxy_request; cbn [httpMethod path];
    unfold bind at 1; unfold ret at 1; cbn [existsb opt_string_eqb];
    change ("GET" =? "GET")%string with true;
    change ("HEAD" =? "GET")%string with false;
    change ("HEAD" =? "HEAD")%string with true;
    cbn [orb]; apply bind_ret_r.
Qed.

Lemma get_response_unmatched (p : string) (g : option string) (w : world) :
  match_group1 (route_pattern env) p = Ok g ->
  Str.truthy g = false ->
  get_response env p w
  = (if String.eqb (BASE_PATH env) p then get_index env
     else if String.eqb EmptyString p then ret (redirect ("/" +:+ BASE_PATH env))
     else ret (reject 403)) w.
Proof.
  intros Hm Hg. unfold get_response, bind, lift. rewrite Hm, Hg. reflexivity.
Qed.

Lemma get_response_matched (p name : string) (w : world) :
  match_group1 (route_pattern env) p = Ok (Some name) ->
  name <> EmptyString ->
  get_response env p w = get_package_index env name w.
Proof.
  intros Hm Hn. unfold get_response, bind, lift. rewrite Hm.
  destruct name; [congruence | reflexivity].
Qed.

(** The root of the site redirects to the base path whenever the route
    pattern compiles. *)
Lemma get_response_root (r : Re.regex) (n : nat) (w : world) :
  BASE_PATH env <> EmptyString ->
  Re.compile (route_pattern env) = Re.Compiled r n ->
  get_response env EmptyString w = (Ok (redirect ("/" +:+ BASE_PATH env)), w).
Proof.
  intros Hne Hc.
  unfold route_pattern in Hc. rewrite <- append_assoc in Hc.
  destruct (match_group1_empty_path _ _ _ Hc) as (g & Hm & Hg).
  rewrite append_assoc in Hm.
  rewrite (get_response_unmatched EmptyString g w Hm Hg).
  destruct (BASE_PATH env); [congruence | reflexivity].
Qed.

(** The package route of a plain base path. *)
Theorem segment_routed_to_package_index (raw seg : string) (w : world) :
  Re.plain (BASE_PATH env) = true ->
  seg <> EmptyString ->
  Str.mem "/" seg = false ->
  Str.strip "/" raw = BASE_PATH env +:+ "/" +:+ seg ->
  proxy_request env (get_request raw) w = get_package_index env seg w.
Proof.
  intros Hb Hne Hs Hraw. unfold get_request.
  rewrite proxy_request_get_or_head by now left. rewrite Hraw.
  apply get_response_matched; [| assumption].
  unfold route_pattern. now apply match_group1_plain_segment.
Qed.

(** The root index route of a plain base path: the cached object,
    decoded and wrapped. *)
Theorem base_path_serves_cached_index (raw : string) (w : world)
    (content : bytes) (html : string) :
  BASE_PATH env <> EmptyString ->
  Re.plain (BASE_PATH env) = true ->
  Str.strip "/" raw = BASE_PATH env ->
  objects w !! "index.html" = Some content ->
  decode content = Ok html ->
  proxy_request env (get_request raw) w
  = (Ok (proxy_reponse html None),
     logged [GetObject (S3_BUCKET env) "index.html"] w).
Proof.
  intros Hne Hb Hraw Hobj Hdec. unfold get_request.
  rewrite proxy_request_get_or_head by now left. rewrite Hraw.
  rewrite (get_response_unmatched _ None w).
  - rewrite String.eqb_refl. unfold get_index, get_object, bind, log, lift, ret.
    cbn [logged objects]. now rewrite Hobj, Hdec.
  - unfold route_pattern. now apply match_group1_plain_base.
  - reflexivity.
Qed.

End HandlerFacts.

(** * The claims *)

(** Two results differ when their status codes do. *)
Ltac by_status H :=
  apply (f_equal (fun r => match r with
                           | Ok resp => statusCode resp
                           | Raise _ => 0%Z
                           end)) in H;
  revert H; vm_compute; discriminate.

(** ** C1: single-segment paths under an empty base path *)

(** C1, on the request [GET /foo/] under the default configuration
    ([BASE_PATH] unset, hence empty).  C1 has the single segment [foo]
    routed to the package index of [foo], as the docstring of
    [get_package_index] has it.  The handler does not: it normalises
    the path to [foo], the route pattern [^/([^/]+)$] asks for the
    slash that [strip('/')] has removed and does not match, and the
    response is [reject(403)]. *)
Lemma empty_base_segment_not_routed :
  BASE_PATH env_no_base = EmptyString
  /\ Str.strip "/" "/foo/" = "foo"
  /\ match_group1 (route_pattern env_no_base) "foo" = Ok None
  /\ proxy_request env_no_base (get_request "/foo/") demo_world
     = (Ok (reject 403), demo_world)
  /\ fst (proxy_request env_no_base (get_request "/foo/") demo_world)
     <> fst (get_package_index env_no_base "foo" demo_world).
Proof.
  repeat (split; [by_evaluation |]).
  intros H. by_status H.
Qed.

(** The request above is no exception.  Under an empty base path no
    single segment [p] (not empty, without a slash) reaches the package
    index: the route pattern does not match [p], and the handler
    answers [GET p] with [reject(403)], without a call on the store. *)
Lemma empty_base_rejects_segments (env : environ) (raw p : string) (w : world) :
  BASE_PATH env = EmptyString ->
  Str.strip "/" raw = p ->
  p <> EmptyString ->
  Str.mem "/" p = false ->
  match_group1 (route_pattern env) p = Ok None
  /\ proxy_request env (get_request raw) w = (Ok (reject 403), w).
Proof.
  intros Hb Hraw Hne Hp.
  assert (Hm : match_group1 (route_pattern env) p = Ok None).
  { unfold route_pattern. rewrite Hb. now apply match_group1_empty_base. }
  split; [exact Hm |].
  unfold get_request. rewrite proxy_request_get_or_head by now left.
  rewrite Hraw, (get_response_unmatched env p None w Hm eq_refl), Hb.
  destruct p; [congruence | reflexivity].
Qed.

Lemma empty_base_rejects_segments_witness :
  BASE_PATH env_no_base = EmptyString /\ Str.strip "/" "/foo/" = "foo" /\ "foo" <> EmptyString
  /\ Str.mem "/" "foo" = false
  /\ match_group1 (route_pattern env_no_base) "foo" = Ok None
  /\ proxy_request env_no_base (get_request "/foo/") demo_world
     = (Ok (reject 403), demo_world).
Proof.
  split; [reflexivity |]. split; [reflexivity |]. split; [discriminate |].
  split; [reflexivity |].
  apply (empty_base_rejects_segments env_no_base "/foo/" "foo" demo_world);
    [reflexivity | reflexivity | discriminate | reflexivity].
Defined.

(** ** C2: the package index keeps the order of the listing *)

(** C2.  For every package name [p] and every list of keys [K] that
    the listing under the prefix [p/] returns (all pages, concatenated),
    the body of the response of [get_package_index p] is the head of
    the page, then exactly [|K|] anchors, then the end of the page, and
    the [i]-th anchor is the one of the [i]-th key: the link to its
    presigned URL, with the last segment of the key as text.  Nothing
    is sorted or dropped. *)
Theorem package_index_preserves_order (env : environ) (p : string) (w : world)
    (K : list string) :
  page_keys (listing w (Some (p +:+ "/")) None) = K ->
  exists (anchors : list string) (w' : world),
    get_package_index env p w
    = (Ok (Response
             (Some ("<!DOCTYPE html><html><head><title>Links for " +:+ p
                    +:+ "</title></head><body><h1>Links for " +:+ p +:+ "</h1>"
                    +:+ Str.join anchors +:+ "</body></html>"))
             (Some {[ "Content-Type" := "text/html; charset=UTF-8" ]})
             200),
       w')
    /\ length anchors = length K
    /\ forall (i : nat) (k : string),
         K !! i = Some k ->
         anchors !! i
         = Some ("<a href=" +:+ Str.dquote
                 +:+ signer w "get_object" (S3_PRESIGNED_URL_TTL env) "GET"
                       (S3_BUCKET env) k
                 +:+ Str.dquote +:+ ">" +:+ snd (os_path_split k) +:+ "</a><br>").
Proof.
  intros HK. pose proof (get_package_index_spec env p w) as Hs. cbn zeta in Hs.
  rewrite HK in Hs. exists (package_anchors env w K). eexists.
  split; [| split].
  - rewrite Hs. unfold package_page. now rewrite render_index_html.
  - unfold package_anchors. now rewrite length_map.
  - intros i k Hk. unfold package_anchors. rewrite list_lookup_fmap, Hk.
    cbn [fmap option_fmap option_map]. now rewrite render_anchor_html.
Qed.

Lemma package_index_preserves_order_witness :
  page_keys (listing demo_world (Some ("foo" +:+ "/")) None)
  = ["foo/foo-1.0.tar.gz"; "foo/foo-0.9-py3-none-any.whl"; "foo/foo-1.0.tar.gz"]
  /\ exists (anchors : list string) (w' : world),
    get_package_index env_simple "foo" demo_world
    = (Ok (Response
             (Some ("<!DOCTYPE html><html><head><title>Links for " +:+ "foo"
                    +:+ "</title></head><body><h1>Links for " +:+ "foo" +:+ "</h1>"
                    +:+ Str.join anchors +:+ "</body></html>"))
             (Some {[ "Content-Type" := "text/html; charset=UTF-8" ]})
             200),
       w')
    /\ length anchors = 3
    /\ forall (i : nat) (k : string),
         ["foo/foo-1.0.tar.gz"; "foo/foo-0.9-py3-none-any.whl"; "foo/foo-1.0.tar.gz"]
           !! i = Some k ->
         anchors !! i
         = Some ("<a href=" +:+ Str.dquote
                 +:+ signer demo_world "get_object" (S3_PRESIGNED_URL_TTL env_simple)
                       "GET" (S3_BUCKET env_simple) k
                 +:+ Str.dquote +:+ ">" +:+ snd (os_path_split k) +:+ "</a><br>").
Proof.
  split; [reflexivity |].
  apply (package_index_preserves_order env_simple "foo" demo_world
           ["foo/foo-1.0.tar.gz"; "foo/foo-0.9-py3-none-any.whl"; "foo/foo-1.0.tar.gz"]).
  reflexivity.
Defined.

(** The page of the package [foo] in full: three anchors for the three
    keys of the listing, the second key first in the alphabet and the
    first key once more at the end. *)
Example package_index_of_foo :
  fst (get_package_index env_simple "foo" demo_world)
  = Ok (Response
          (Some ("<!DOCTYPE html><html><head><title>Links for foo</title></head>"
                 +:+ "<body><h1>Links for foo</h1>"
                 +:+ "<a href=" +:+ Str.dquote
                 +:+ "https://pypi.s3.amazonaws.com/foo/foo-1.0.tar.gz?X-Amz-Signature=0"
                 +:+ Str.dquote +:+ ">foo-1.0.tar.gz</a><br>"
                 +:+ "<a href=" +:+ Str.dquote
                 +:+ "https://pypi.s3.amazonaws.com/foo/foo-0.9-py3-none-any.whl?X-Amz-Signature=0"
                 +:+ Str.dquote +:+ ">foo-0.9-py3-none-any.whl</a><br>"
                 +:+ "<a href=" +:+ Str.dquote
                 +:+ "https://pypi.s3.amazonaws.com/foo/foo-1.0.tar.gz?X-Amz-Signature=0"
                 +:+ Str.dquote +:+ ">foo-1.0.tar.gz</a><br>"
                 +:+ "</body></html>"))
          (Some {[ "Content-Type" := "text/html; charset=UTF-8" ]})
          200).
Proof. by_evaluation. Qed.

(** ** C3: the reindexer writes the root index *)

(** C3, on a listing that yields the common prefixes [a/], [b/], [c/]
    on its first page and has a second page with the key [index.html]
    and no common prefix.  C3 has the index of [a], [b], [c] written
    over the cached one.  [reindex_bucket] does not write it: the
    second page has no [CommonPrefixes], iterating over
    [page.get('CommonPrefixes')] raises [TypeError] while [join]
    consumes the generators, and the call ends before [put_object],
    with the stale index still in the bucket.  [get_package_index]
    reads its pages with [page.get('Contents') or []]; the [or []] is
    what [reindex_bucket] lacks. *)
Lemma reindex_stops_at_page_without_prefixes :
  page_prefixes (listing split_world None (Some "/"))
  = [CommonPrefix "a/"; CommonPrefix "b/"; CommonPrefix "c/"]
  /\ objects split_world !! "index.html" = Some (encode "stale")
  /\ fst (reindex_bucket env_simple (Event None None) split_world) = Raise TypeError
  /\ objects (snd (reindex_bucket env_simple (Event None None) split_world))
     = objects split_world
  /\ objects (snd (reindex_bucket env_simple (Event None None) split_world))
       !! "index.html"
     <> Some (encode (root_page ["a"; "b"; "c"])).
Proof.
  repeat (split; [by_evaluation |]).
  intros H. revert H. vm_compute. discriminate.
Qed.

(** When every page of the listing carries common prefixes, the index
    is written as C3 has it: for every such listing that yields [a/],
    [b/], [c/] in this order, [reindex_bucket] stores under the key
    [index.html], over whatever was there, the page titled
    [Simple index] with exactly the three anchors of [a], [b] and [c],
    in this order, each with its name as link target. *)
Lemma reindex_writes_three_anchors (env : environ) (ev : event) (w : world) :
  Forall (fun pg => CommonPrefixes pg <> None) (listing w None (Some "/")) ->
  page_prefixes (listing w None (Some "/"))
  = [CommonPrefix "a/"; CommonPrefix "b/"; CommonPrefix "c/"] ->
  let anchors := [render_anchor ("a", "a"); render_anchor ("b", "b");
                  render_anchor ("c", "c")] in
  let html := render_index "Simple index" (Str.join anchors) in
  exists w' : world,
    reindex_bucket env ev w = (Ok tt, w')
    /\ objects w' = <[ "index.html" := encode html ]> (objects w)
    /\ objects w' !! "index.html" = Some (encode html)
    /\ encode html = list_ascii_of_string html
    /\ html = "<!DOCTYPE html><html><head><title>Simple index</title></head>"
              +:+ "<body><h1>Simple index</h1>"
              +:+ "<a href=" +:+ Str.dquote +:+ "a" +:+ Str.dquote +:+ ">a</a><br>"
              +:+ "<a href=" +:+ Str.dquote +:+ "b" +:+ Str.dquote +:+ ">b</a><br>"
              +:+ "<a href=" +:+ Str.dquote +:+ "c" +:+ Str.dquote +:+ ">c</a><br>"
              +:+ "</body></html>".
Proof.
  intros Hall Hpre anchors html.
  pose proof (reindex_bucket_written env ev w Hall) as Hs. cbn zeta in Hs.
  rewrite Hpre in Hs. eexists. split; [exact Hs |].
  cbn [objects]. split; [reflexivity |]. split; [apply lookup_insert_eq |].
  split; by_evaluation.
Qed.

Lemma reindex_writes_three_anchors_witness :
  Forall (fun pg => CommonPrefixes pg <> None) (listing demo_world None (Some "/"))
  /\ page_prefixes (listing demo_world None (Some "/"))
     = [CommonPrefix "a/"; CommonPrefix "b/"; CommonPrefix "c/"]
  /\ exists w' : world,
    reindex_bucket env_simple (Event None None) demo_world = (Ok tt, w')
    /\ objects w'
       = <[ "index.html" :=
              encode (render_index "Simple index"
                        (Str.join [render_anchor ("a", "a"); render_anchor ("b", "b");
                                   render_anchor ("c", "c")])) ]> (objects demo_world)
    /\ objects w' !! "index.html"
       = Some (encode (render_index "Simple index"
                        (Str.join [render_anchor ("a", "a"); render_anchor ("b", "b");
                                   render_anchor ("c", "c")])))
    /\ encode (render_index "Simple index"
                 (Str.join [render_anchor ("a", "a"); render_anchor ("b", "b");
                            render_anchor ("c", "c")]))
       = list_ascii_of_string
           (render_index "Simple index"
              (Str.join [render_anchor ("a", "a"); render_anchor ("b", "b");
                         render_anchor ("c", "c")]))
    /\ render_index "Simple index"
         (Str.join [render_anchor ("a", "a"); render_anchor ("b", "b");
                    render_anchor ("c", "c")])
       = "<!DOCTYPE html><html><head><title>Simple index</title></head>"
              +:+ "<body><h1>Simple index</h1>"
              +:+ "<a href=" +:+ Str.dquote +:+ "a" +:+ Str.dquote +:+ ">a</a><br>"
              +:+ "<a href=" +:+ Str.dquote +:+ "b" +:+ Str.dquote +:+ ">b</a><br>"
              +:+ "<a href=" +:+ Str.dquote +:+ "c" +:+ Str.dquote +:+ ">c</a><br>"
              +:+ "</body></html>".
Proof.
  assert (Hall : Forall (fun pg => CommonPrefixes pg <> None)
                   (listing demo_world None (Some "/"))).
  { repeat constructor; discriminate. }
  split; [exact Hall |]. split; [reflexivity |].
  apply (reindex_writes_three_anchors env_simple (Event None None) demo_world Hall).
  reflexivity.
Defined.

(** ** C4: a package without keys *)

(** C4.  For every package name [p] whose listing under [p/] returns no
    key at all (pages without [Contents] included), [get_package_index p]
    returns status 200 and the page titled [Links for p] with no
    anchor. *)
Theorem empty_package_index (env : environ) (p : string) (w : world) :
  page_keys (listing w (Some (p +:+ "/")) None) = [] ->
  exists (resp : response) (w' : world),
    get_package_index env p w = (Ok resp, w')
    /\ statusCode resp = 200%Z
    /\ resp = proxy_reponse (render_index ("Links for " +:+ p) (Str.join [])) None
    /\ body resp
       = Some ("<!DOCTYPE html><html><head><title>Links for " +:+ p
               +:+ "</title></head><body><h1>Links for " +:+ p
               +:+ "</h1></body></html>").
Proof.
  intros HK. pose proof (get_package_index_spec env p w) as Hs. cbn zeta in Hs.
  rewrite HK in Hs. eexists _, _. split; [exact Hs |].
  repeat split; reflexivity.
Qed.

Lemma empty_package_index_witness :
  page_keys (listing empty_bucket (Some ("foo" +:+ "/")) None) = []
  /\ exists (resp : response) (w' : world),
    get_package_index env_simple "foo" empty_bucket = (Ok resp, w')
    /\ statusCode resp = 200%Z
    /\ resp = proxy_reponse (render_index ("Links for " +:+ "foo") (Str.join [])) None
    /\ body resp
       = Some ("<!DOCTYPE html><html><head><title>Links for " +:+ "foo"
               +:+ "</title></head><body><h1>Links for " +:+ "foo"
               +:+ "</h1></body></html>").
Proof.
  split; [reflexivity |].
  apply (empty_package_index env_simple "foo" empty_bucket). reflexivity.
Defined.

(** ** C5: other methods *)

(** C5.  For every request whose method is neither [GET] nor [HEAD]
    (a missing method included) and every request path, the handler
    returns [reject(403)]: status 403, no body, no headers.  The store
    is as before, so no listing, read or signing call was made. *)
Theorem other_methods_rejected (env : environ) (method : option string)
    (raw : string) (w : world) :
  method <> Some "GET" ->
  method <> Some "HEAD" ->
  proxy_request env (Event method (Some raw)) w = (Ok (reject 403), w)
  /\ statusCode (reject 403) = 403%Z
  /\ body (reject 403) = None
  /\ headers (reject 403) = None.
Proof.
  intros Hg Hh. split; [| repeat split].
  unfold proxy_request. cbn [httpMethod path].
  rewrite not_get_or_head by assumption. reflexivity.
Qed.

Lemma other_methods_rejected_witness :
  Some "POST" <> Some "GET" /\ Some "POST" <> Some "HEAD"
  /\ proxy_request env_simple (Event (Some "POST") (Some "/simple/foo/")) demo_world
     = (Ok (reject 403), demo_world)
  /\ statusCode (reject 403) = 403%Z
  /\ body (reject 403) = None
  /\ headers (reject 403) = None.
Proof.
  split; [discriminate |]. split; [discriminate |].
  apply (other_methods_rejected env_simple (Some "POST") "/simple/foo/" demo_world);
    discriminate.
Defined.

(** ** C6: paths with more than one segment after the base path *)

(** C6, on the request [GET /.*/x/y] with [BASE_PATH] set to [.*].
    The path is the base path followed by two segments, and C6 has it
    rejected.  The handler does not reject it: [get_response] puts the
    base path into the pattern as it is, not escaped, although the test
    [BASE_PATH == path] two lines below reads it as plain text; the
    pattern is [^.*/([^/]+)$], the path matches it with [y] as the
    group, and the request is answered by the package index of [y],
    with status 200. *)
Lemma wildcard_base_routes_deep_path :
  BASE_PATH env_wildcard = ".*"
  /\ Str.strip "/" "/.*/x/y" = ".*" +:+ "/" +:+ "x" +:+ "/" +:+ "y"
  /\ match_group1 (route_pattern env_wildcard) ".*/x/y" = Ok (Some "y")
  /\ proxy_request env_wildcard (get_request "/.*/x/y") empty_bucket
     = get_package_index env_wildcard "y" empty_bucket
  /\ fst (proxy_request env_wildcard (get_request "/.*/x/y") empty_bucket)
     = Ok (proxy_reponse (render_index "Links for y" EmptyString) None)
  /\ fst (proxy_request env_wildcard (get_request "/.*/x/y") empty_bucket)
     <> Ok (reject 403).
Proof.
  repeat (split; [by_evaluation |]).
  intros H. by_status H.
Qed.

(** Where the pattern reads the base path as plain text, paths of two
    segments are rejected as C6 has it: for every base path that is not
    empty and has no character with a meaning in a regular expression,
    and every normalised path of the form [base/seg1/seg2], the path
    matches neither the package route, nor the root index route, nor
    the redirect route, and [GET] on it returns [reject(403)]. *)
Lemma deep_path_rejected (env : environ) (raw seg1 seg2 : string) (w : world) :
  BASE_PATH env <> EmptyString ->
  Re.plain (BASE_PATH env) = true ->
  Str.strip "/" raw = BASE_PATH env +:+ "/" +:+ seg1 +:+ "/" +:+ seg2 ->
  match_group1 (route_pattern env) (Str.strip "/" raw) = Ok None
  /\ String.eqb (BASE_PATH env) (Str.strip "/" raw) = false
  /\ String.eqb EmptyString (Str.strip "/" raw) = false
  /\ proxy_request env (get_request raw) w = (Ok (reject 403), w).
Proof.
  intros Hne Hplain Hraw. rewrite Hraw.
  assert (Hslash : Str.mem "/" (seg1 +:+ "/" +:+ seg2) = true).
  { rewrite mem_append, append_cons, mem_cons. cbn. apply orb_true_r. }
  assert (Hm : match_group1 (route_pattern env)
                 (BASE_PATH env +:+ "/" +:+ seg1 +:+ "/" +:+ seg2) = Ok None).
  { unfold route_pattern. now apply match_group1_plain_deep. }
  assert (Hb : String.eqb (BASE_PATH env)
                 (BASE_PATH env +:+ "/" +:+ seg1 +:+ "/" +:+ seg2) = false)
    by apply eqb_append_slash.
  assert (He : String.eqb EmptyString (BASE_PATH env +:+ "/" +:+ seg1 +:+ "/" +:+ seg2) = false).
  { destruct (BASE_PATH env); [congruence | reflexivity]. }
  repeat split; try assumption.
  unfold get_request. rewrite proxy_request_get_or_head by now left.
  rewrite Hraw, (get_response_unmatched env _ None w Hm eq_refl), Hb, He.
  reflexivity.
Qed.

Lemma deep_path_rejected_witness :
  BASE_PATH env_simple <> EmptyString
  /\ Re.plain (BASE_PATH env_simple) = true
  /\ Str.strip "/" "/simple/pkgname/extra/"
     = BASE_PATH env_simple +:+ "/" +:+ "pkgname" +:+ "/" +:+ "extra"
  /\ match_group1 (route_pattern env_simple) (Str.strip "/" "/simple/pkgname/extra/")
     = Ok None
  /\ String.eqb (BASE_PATH env_simple) (Str.strip "/" "/simple/pkgname/extra/") = false
  /\ String.eqb EmptyString (Str.strip "/" "/simple/pkgname/extra/") = false
  /\ proxy_request env_simple (get_request "/simple/pkgname/extra/") demo_world
     = (Ok (reject 403), demo_world).
Proof.
  split; [discriminate |]. split; [reflexivity |]. split; [reflexivity |].
  apply (deep_path_rejected env_simple "/simple/pkgname/extra/" "pkgname" "extra"
           demo_world); [discriminate | reflexivity | reflexivity].
Defined.

(** ** C7: the root path *)

(** C7, on the request [GET /] with [BASE_PATH] set to [(].  The
    normalised path is empty and differs from the base path, and C7
    has the redirect to [/(].  The handler does not return it:
    [get_response] puts the base path into the pattern as it is, not
    escaped, and matches before it looks at the path; the pattern
    [^(/([^/]+)$] does not compile, [re.match] raises [re.error], which
    the [except AttributeError] does not catch, and no response is
    returned. *)
Lemma unbalanced_base_raises :
  BASE_PATH env_paren = "("
  /\ Str.strip "/" "/" = EmptyString
  /\ EmptyString <> BASE_PATH env_paren
  /\ proxy_request env_paren (get_request "/") demo_world = (Raise ReError, demo_world).
Proof.
  split; [by_evaluation |]. split; [by_evaluation |].
  split; [discriminate |]. by_evaluation.
Qed.

(** Where the pattern reads the base path as plain text, the root
    redirects as C7 has it: for every request whose normalised path is
    empty and whose method is [GET] or [HEAD], and every base path that
    is not empty and has no character with a meaning in a regular
    expression, the response has status 301, the header [Location]
    equal to [/] followed by the base path, and no body; the store is
    not called. *)
Lemma plain_base_root_redirect (env : environ) (method raw : string) (w : world) :
  method = "GET" \/ method = "HEAD" ->
  Str.strip "/" raw = EmptyString ->
  BASE_PATH env <> EmptyString ->
  Re.plain (BASE_PATH env) = true ->
  proxy_request env (Event (Some method) (Some raw)) w
  = (Ok (Response None (Some {[ "Location" := "/" +:+ BASE_PATH env ]}) 301), w).
Proof.
  intros Hmeth Hraw Hne Hp.
  rewrite proxy_request_get_or_head by assumption. rewrite Hraw.
  apply (get_response_root env (Re.plain_route (BASE_PATH env)) 1 w Hne).
  unfold route_pattern. now apply compile_plain_route.
Qed.

Example head_of_root_redirects :
  proxy_request env_simple (Event (Some "HEAD") (Some "/")) demo_world
  = (Ok (Response None (Some {[ "Location" := "/simple" ]}) 301), demo_world).
Proof.
  apply (plain_base_root_redirect env_simple "HEAD" "/" demo_world);
    [now right | reflexivity | discriminate | reflexivity].
Qed.

(** ** C8: the time-to-live of presigned URLs *)

(** C8.  For every configured time-to-live [T] and every key [k],
    [presign k] makes one signing call, for [get_object] with
    [ExpiresIn] equal to [T] and the method [GET], and returns its URL.
    For two values [T1] and [T2] and the same listing, the two package
    indexes have the same number of anchors with the same names in the
    same order; they differ in the URLs the signer returned. *)
Theorem ttl_passes_through (base : option string) (bucket : string) (T1 T2 : Z)
    (p k : string) (w : world) :
  let env1 := Environ base bucket (Some T1) in
  let env2 := Environ base bucket (Some T2) in
  let K := page_keys (listing w (Some (p +:+ "/")) None) in
  let names := map (fun x => snd (os_path_split x)) K in
  let page hrefs :=
    proxy_reponse (render_index ("Links for " +:+ p)
                     (Str.join (map render_anchor (combine hrefs names)))) None in
  presign env1 k w
  = (Ok (signer w "get_object" T1 "GET" bucket k),
     logged [GeneratePresignedUrl "get_object" T1 "GET" bucket k] w)
  /\ exists (hrefs1 hrefs2 : list string) (w1 w2 : world),
       get_package_index env1 p w = (Ok (page hrefs1), w1)
       /\ get_package_index env2 p w = (Ok (page hrefs2), w2)
       /\ hrefs1 = map (signer w "get_object" T1 "GET" bucket) K
       /\ hrefs2 = map (signer w "get_object" T2 "GET" bucket) K
       /\ length hrefs1 = length K /\ length hrefs2 = length K
       /\ length names = length K
       /\ map snd (combine hrefs1 names) = map snd (combine hrefs2 names).
Proof.
  intros env1 env2 K names page. split; [reflexivity |].
  exists (map (signer w "get_object" T1 "GET" bucket) K),
         (map (signer w "get_object" T2 "GET" bucket) K).
  pose proof (get_package_index_spec env1 p w) as H1.
  pose proof (get_package_index_spec env2 p w) as H2.
  cbn zeta in H1, H2. fold K in H1, H2.
  eexists _, _. split; [| split]; [| | repeat split].
  - rewrite H1. f_equal. subst page names. cbn beta.
    unfold package_page, package_anchors.
    do 4 f_equal. symmetry. rewrite combine_map, map_map. reflexivity.
  - rewrite H2. f_equal. subst page names. cbn beta.
    unfold package_page, package_anchors.
    do 4 f_equal. symmetry. rewrite combine_map, map_map. reflexivity.
  - apply length_map.
  - apply length_map.
  - apply length_map.
  - subst names. now rewrite !combine_map, !map_map.
Qed.

(** Without the variable the time-to-live is 900 seconds. *)
Example default_ttl : S3_PRESIGNED_URL_TTL env_simple = 900%Z.
Proof. reflexivity. Qed.

(** ** C9: HEAD and GET *)

(** C9.  For every request path and every store, the handler returns
    for [HEAD] what it returns for [GET]: the same response, body
    included, after the same calls. *)
Theorem head_same_as_get (env : environ) (p : string) (w : world) :
  proxy_request env (Event (Some "HEAD") (Some p)) w
  = proxy_request env (Event (Some "GET") (Some p)) w.
Proof.
  rewrite !proxy_request_get_or_head; [reflexivity | now left | now right].
Qed.

(** The response to [HEAD] on a package carries the whole page. *)
Example head_has_body :
  exists (resp : response) (w' : world),
    proxy_request env_simple (Event (Some "HEAD") (Some "/simple/foo/")) demo_world
    = (Ok resp, w')
    /\ resp = package_page "foo"
                (package_anchors env_simple demo_world
                   ["foo/foo-1.0.tar.gz"; "foo/foo-0.9-py3-none-any.whl";
                    "foo/foo-1.0.tar.gz"]).
Proof. eexists _, _. split; by_evaluation. Qed.

(** ** C10: the reindexer and pages without common prefixes *)

(** C10.  For every listing in which some page has no [CommonPrefixes]
    (an empty bucket, for one), [reindex_bucket] raises [TypeError]
    after the listing call and before any upload: the objects of the
    bucket, the cached index among them, are as before.
    [get_package_index], for its part, accepts pages without
    [Contents] and returns the page without anchors. *)
Theorem reindex_fails_without_prefixes (env : environ) (ev : event) (p : string)
    (w : world) :
  (Exists (fun pg => CommonPrefixes pg = None) (listing w None (Some "/")) ->
   exists w' : world,
     reindex_bucket env ev w = (Raise TypeError, w')
     /\ objects w' = objects w
     /\ calls w' = calls w ++ [ListObjects (S3_BUCKET env) None (Some "/")])
  /\ (Forall (fun pg => Contents pg = None) (listing w (Some (p +:+ "/")) None) ->
      exists w' : world,
        get_package_index env p w
        = (Ok (proxy_reponse (render_index ("Links for " +:+ p) EmptyString) None), w')).
Proof.
  split.
  - intros Hex. eexists. split; [now apply reindex_bucket_raises |]. split; reflexivity.
  - intros Hall. apply page_keys_no_contents in Hall.
    pose proof (get_package_index_spec env p w) as Hs. cbn zeta in Hs.
    rewrite Hall in Hs. eexists. exact Hs.
Qed.

Lemma reindex_fails_without_prefixes_witness :
  Exists (fun pg => CommonPrefixes pg = None) (listing empty_bucket None (Some "/"))
  /\ Forall (fun pg => Contents pg = None)
       (listing empty_bucket (Some ("foo" +:+ "/")) None)
  /\ (exists w' : world,
     reindex_bucket env_simple (Event None None) empty_bucket = (Raise TypeError, w')
     /\ objects w' = objects empty_bucket
     /\ calls w'
        = calls empty_bucket ++ [ListObjects (S3_BUCKET env_simple) None (Some "/")])
  /\ (exists w' : world,
        get_package_index env_simple "foo" empty_bucket
        = (Ok (proxy_reponse (render_index ("Links for " +:+ "foo") EmptyString) None), w')).
Proof.
  assert (Hex : Exists (fun pg => CommonPrefixes pg = None)
                  (listing empty_bucket None (Some "/"))).
  { constructor. reflexivity. }
  assert (Hall : Forall (fun pg => Contents pg = None)
                   (listing empty_bucket (Some ("foo" +:+ "/")) None)).
  { repeat constructor. }
  split; [exact Hex |]. split; [exact Hall |].
  destruct (reindex_fails_without_prefixes env_simple (Event None None) "foo"
              empty_bucket) as [H1 H2].
  split; [exact (H1 Hex) | exact (H2 Hall)].
Defined.


(** * Further properties *)

(** ** Stripping *)

Lemma lstrip_head_ok chars s : head_ok chars (Str.lstrip chars s) = true.
Proof.
  induction s as [|c s IH]; [reflexivity |].
  cbn [Str.lstrip]. destruct (Str.mem c chars) eqn:E; [exact IH |].
  cbn. now rewrite E.
Qed.

Lemma lstrip_fixed chars s : head_ok chars s = true -> Str.lstrip chars s = s.
Proof.
  destruct s as [|c s]; [reflexivity |]. cbn. intros H.
  apply negb_true_iff in H. now rewrite H.
Qed.

Lemma rstrip_cons chars c s :
  Str.rstrip chars (String c s)
  = match Str.rstrip chars s with
    | EmptyString => if Str.mem c chars then EmptyString else String c EmptyString
    | t => String c t
    end.
Proof. reflexivity. Qed.

Lemma rstrip_last_ok chars s : last_ok chars (Str.rstrip chars s) = true.
Proof.
  induction s as [|c s IH]; [reflexivity |].
  rewrite rstrip_cons. destruct (Str.rstrip chars s) as [|d t] eqn:E.
  - destruct (Str.mem c chars) eqn:Ec; [reflexivity |]. cbn. now rewrite Ec.
  - exact IH.
Qed.

Lemma rstrip_fixed chars s : last_ok chars s = true -> Str.rstrip chars s = s.
Proof.
  induction s as [|c s IH]; [reflexivity |]. intros H.
  rewrite rstrip_cons. destruct s as [|d s].
  - cbn in *. apply negb_true_iff in H. now rewrite H.
  - rewrite IH by exact H. reflexivity.
Qed.

Lemma rstrip_head_ok chars s :
  head_ok chars s = true -> head_ok chars (Str.rstrip chars s) = true.
Proof.
  destruct s as [|c s]; [reflexivity |]. intros H.
  rewrite rstrip_cons. destruct (Str.rstrip chars s).
  - cbn in H. apply negb_true_iff in H. rewrite H. cbn. now rewrite H.
  - exact H.
Qed.

Lemma strip_head_ok chars s : head_ok chars (Str.strip chars s) = true.
Proof. unfold Str.strip. apply rstrip_head_ok, lstrip_head_ok. Qed.

Lemma strip_last_ok chars s : last_ok chars (Str.strip chars s) = true.
Proof. unfold Str.strip. apply rstrip_last_ok. Qed.

Lemma strip_fixed chars s :
  head_ok chars s = true -> last_ok chars s = true -> Str.strip chars s = s.
Proof.
  intros Hh Hl. unfold Str.strip. rewrite lstrip_fixed by assumption.
  now apply rstrip_fixed.
Qed.

Lemma strip_idempotent chars s :
  Str.strip chars (Str.strip chars s) = Str.strip chars s.
Proof. apply strip_fixed; [apply strip_head_ok | apply strip_last_ok]. Qed.

Lemma lstrip_append chars s t :
  Str.lstrip chars (s +:+ t)
  = match Str.lstrip chars s with
    | EmptyString => Str.lstrip chars t
    | u => u +:+ t
    end.
Proof.
  induction s as [|c s IH]; [reflexivity |].
  rewrite append_cons. cbn [Str.lstrip].
  destruct (Str.mem c chars); [exact IH | reflexivity].
Qed.

Lemma rstrip_snoc chars s c :
  Str.mem c chars = true ->
  Str.rstrip chars (s +:+ String c EmptyString) = Str.rstrip chars s.
Proof.
  intros Hc. induction s as [|d s IH].
  - rewrite append_nil_l, rstrip_cons. cbn. now rewrite Hc.
  - rewrite append_cons, !rstrip_cons, IH. reflexivity.
Qed.

Lemma strip_snoc chars s c :
  Str.mem c chars = true ->
  Str.strip chars (s +:+ String c EmptyString) = Str.strip chars s.
Proof.
  intros Hc. unfold Str.strip. rewrite lstrip_append.
  destruct (Str.lstrip chars s) as [|d u] eqn:E.
  - cbn. now rewrite Hc.
  - now apply rstrip_snoc.
Qed.

Lemma strip_cons chars s c :
  Str.mem c chars = true ->
  Str.strip chars (String c s) = Str.strip chars s.
Proof. intros Hc. unfold Str.strip. cbn [Str.lstrip]. now rewrite Hc. Qed.

(** *** UTF-8 *)
Lemma utf8_scan_encode_char (c : ascii) (rest : bytes) :
  utf8_scan (utf8_encode_char c ++ rest)
  = result_bind (utf8_scan rest) (fun o => Ok (option_map (String c) o)).
Proof. destruct c as [[] [] [] [] [] [] [] []]; reflexivity. Qed.

Lemma utf8_scan_encode (s : string) : utf8_scan (encode s) = Ok (Some s).
Proof.
  induction s as [|c s IH]; [reflexivity |].
  unfold encode in *. cbn [list_ascii_of_string flat_map].
  rewrite utf8_scan_encode_char, IH. reflexivity.
Qed.

Lemma decode_encode_id (s : string) : decode (encode s) = Ok s.
Proof. unfold decode. now rewrite utf8_scan_encode. Qed.

(** *** The last segment of a key *)
Lemma after_last_no_sep (sep : ascii) (s : string) :
  Str.mem sep (Str.after_last sep s) = false.
Proof.
  induction s as [|c s IH]; [reflexivity |].
  cbn [Str.after_last]. destruct (Str.mem sep s) eqn:E; [exact IH |].
  destruct (Ascii.eqb c sep) eqn:Ec; [exact E |].
  rewrite mem_cons, E, Ascii.eqb_sym, Ec. reflexivity.
Qed.

Lemma after_last_append (sep : ascii) (pre file : string) :
  Str.mem sep file = false ->
  Str.after_last sep (pre +:+ String sep file) = file.
Proof.
  intros Hf. induction pre as [|c pre IH].
  - rewrite append_nil_l. cbn [Str.after_last]. now rewrite Hf, Ascii.eqb_refl.
  - rewrite append_cons. cbn [Str.after_last].
    rewrite mem_append, mem_cons, Ascii.eqb_refl, orb_true_r. exact IH.
Qed.

Lemma after_last_whole (sep : ascii) (s : string) :
  Str.mem sep s = false -> Str.after_last sep s = s.
Proof.
  destruct s as [|c s]; [reflexivity |]. rewrite mem_cons. intros H.
  apply orb_false_elim in H as [Hc Hs]. cbn [Str.after_last].
  now rewrite Hs, Ascii.eqb_sym, Hc.
Qed.

(** *** Prefixes *)
Lemma drop_prefix_inv (a : string) : forall s r,
  Str.drop_prefix a s = Some r -> s = a +:+ r.
Proof.
  induction a as [|c a IH]; intros s r H.
  - cbn in H. now inversion H.
  - destruct s as [|d s]; [discriminate |]. cbn in H.
    destruct (Ascii.eqb_spec c d) as [-> |]; [| discriminate].
    rewrite append_cons. f_equal. now apply IH.
Qed.

Lemma drop_prefix_app (a b : string) : forall s,
  Str.drop_prefix (a +:+ b) s
  = match Str.drop_prefix a s with
    | Some r => Str.drop_prefix b r
    | None => None
    end.
Proof.
  induction a as [|c a IH]; intros s; [reflexivity |].
  rewrite append_cons. destruct s as [|d s].
  - destruct b; reflexivity.
  - cbn [Str.drop_prefix]. destruct (Ascii.eqb c d); [apply IH | reflexivity].
Qed.


(** *** The route pattern of a plain base path, in full *)

Section RoutePatternSpec.
Import Re.

Lemma match_group1_plain_spec (base p : string) :
  plain base = true ->
  match_group1 ("^" +:+ base +:+ "/([^/]+)$") p = Ok (segment_after base p).
Proof.
  intros Hb. unfold segment_after. rewrite drop_prefix_app.
  destruct (Str.drop_prefix base p) as [r|] eqn:Hr.
  - apply drop_prefix_inv in Hr. subst p.
    destruct r as [|d r].
    + cbn [Str.drop_prefix]. rewrite append_nil_r. now apply match_group1_plain_base.
    + cbn [Str.drop_prefix]. destruct (Ascii.eqb_spec "/" d) as [<- | Hd].
      * destruct r as [|c r].
        { cbn [Str.truthy andb].
          unfold match_group1, re_match. rewrite compile_plain_route by assumption.
          unfold plain_route. cbn [fold_right run]. cbn [Nat.eqb].
          rewrite run_lits, drop_prefix_append. reflexivity. }
        cbn [Str.truthy andb].
        destruct (Str.mem "/" (String c r)) eqn:Hs; cbn [negb].
        { now apply match_group1_plain_deep. }
        { apply match_group1_plain_segment; [assumption | discriminate | assumption]. }
      * unfold match_group1, re_match. rewrite compile_plain_route by assumption.
        unfold plain_route. cbn [fold_right run]. cbn [Nat.eqb].
        rewrite run_lits, drop_prefix_append. cbn [fold_right run one_char].
        destruct (Ascii.eqb_spec "/" d); [congruence | reflexivity].
  - unfold match_group1, re_match. rewrite compile_plain_route by assumption.
    unfold plain_route. cbn [fold_right run]. cbn [Nat.eqb].
    now rewrite run_lits, Hr.
Qed.

End RoutePatternSpec.

(** ** The handlers, case by case *)

Section MoreHandlerFacts.
Variable env : environ.

Lemma get_index_outcome (w : world) :
  get_index env w
  = (match objects w !! "index.html" with
     | None => Raise NoSuchKey
     | Some content =>
         match decode content with
         | Ok html => Ok (proxy_reponse html None)
         | Raise e => Raise e
         end
     end,
     logged [GetObject (S3_BUCKET env) "index.html"] w).
Proof.
  unfold get_index, get_object, bind, log, lift, ret. cbn [logged objects].
  destruct (objects w !! "index.html") as [content|]; [| reflexivity].
  destruct (decode content); reflexivity.
Qed.

Lemma reindex_bucket_outcome (ev : event) (w : world) :
  reindex_bucket env ev w
  = match page_pkgs (listing w None (Some "/")) with
    | Ok pkgs =>
        (Ok tt,
         World (<[ "index.html" := encode (root_page pkgs) ]> (objects w))
               (listing w) (signer w)
               (calls w ++ [ListObjects (S3_BUCKET env) None (Some "/");
                            PutObject (S3_BUCKET env) "index.html"
                              (encode (root_page pkgs))]))
    | Raise e => (Raise e, logged [ListObjects (S3_BUCKET env) None (Some "/")] w)
    end.
Proof.
  unfold reindex_bucket, paginate, put_object.
  unfold bind, log, lift, ret, logged. cbn [listing objects signer calls].
  destruct (page_pkgs _); [| reflexivity].
  unfold root_page. now rewrite <- app_assoc.
Qed.

Lemma presign_calls_not_put (keys : list string) :
  existsb is_put (map (presign_call env) keys) = false.
Proof. induction keys as [|k keys IH]; [reflexivity | exact IH]. Qed.

(** Every run of [get_response] leaves a world that differs from the
    one before by calls that are not uploads. *)
Lemma get_response_reads (p : string) (w : world) :
  exists cs : list s3_call,
    snd (get_response env p w) = logged cs w /\ existsb is_put cs = false.
Proof.
  unfold get_response, bind at 1, lift.
  destruct (match_group1 (route_pattern env) p) as [name|e].
  - destruct (Str.truthy name).
    + pose proof (get_package_index_spec env (default EmptyString name) w) as Hs.
      cbn zeta in Hs. rewrite Hs. eexists. split; [reflexivity |].
      cbn [existsb is_put orb]. apply presign_calls_not_put.
    + destruct (String.eqb (BASE_PATH env) p).
      * rewrite get_index_outcome. eexists. split; reflexivity.
      * exists []. rewrite logged_nil. destruct (String.eqb EmptyString p); split; reflexivity.
  - exists []. now rewrite logged_nil.
Qed.

Lemma get_response_shape (p : string) (w w' : world) (resp : response) :
  get_response env p w = (Ok resp, w') ->
  (exists html, resp = proxy_reponse html None)
  \/ resp = redirect ("/" +:+ BASE_PATH env)
  \/ resp = reject 403.
Proof.
  unfold get_response, bind at 1, lift.
  destruct (match_group1 (route_pattern env) p) as [name|e]; [| discriminate].
  destruct (Str.truthy name).
  - pose proof (get_package_index_spec env (default EmptyString name) w) as Hs.
    cbn zeta in Hs. rewrite Hs. intros H. inversion H. left. eexists. reflexivity.
  - destruct (String.eqb (BASE_PATH env) p).
    + rewrite get_index_outcome. destruct (objects w !! "index.html"); [| discriminate].
      destruct (decode _); [| discriminate]. intros H. inversion H. left. eexists. reflexivity.
    + destruct (String.eqb EmptyString p); intros H; inversion H; auto.
Qed.

Lemma proxy_request_unfold (ev : event) (w : world) :
  proxy_request env ev w
  = match path ev with
    | None => (Raise AttributeError, w)
    | Some raw =>
        if existsb (opt_string_eqb (httpMethod ev)) [Some "GET"; Some "HEAD"]
        then get_response env (Str.strip "/" raw) w
        else (Ok (reject 403), w)
    end.
Proof.
  unfold proxy_request. destruct (path ev) as [raw|]; [| reflexivity].
  unfold bind at 1, ret at 1.
  destruct (existsb _ _); [apply bind_ret_r | reflexivity].
Qed.

Lemma get_response_by_prefix (p : string) (w : world) :
  Re.plain (BASE_PATH env) = true ->
  get_response env p w = route_by_prefix env p w.
Proof.
  intros Hb. unfold get_response, route_by_prefix, bind at 1, lift, route_pattern.
  rewrite match_group1_plain_spec by assumption.
  unfold segment_after.
  destruct (Str.drop_prefix _ p) as [seg|]; [| reflexivity].
  destruct seg as [|c seg]; [reflexivity |].
  cbn [Str.truthy andb]. destruct (Str.mem "/" (String c seg)); reflexivity.
Qed.

End MoreHandlerFacts.

Lemma drop_prefix_self (a : string) : Str.drop_prefix a a = Some EmptyString.
Proof.
  induction a as [|c a IH]; [reflexivity |]. cbn. now rewrite Ascii.eqb_refl.
Qed.

Lemma segment_after_base (base : string) : segment_after base base = None.
Proof. unfold segment_after. now rewrite drop_prefix_app, drop_prefix_self. Qed.

(** X1.  Encoding a text as UTF-8 and decoding the bytes gives the text
    back: what [reindex_bucket] uploads with [body.encode()] is read by
    [get_index] with [.decode()] as the same page. *)
Theorem utf8_round_trip (s : string) : decode (encode s) = Ok s.
Proof.
  unfold decode.
  assert (H : utf8_scan (encode s) = Ok (Some s)).
  { induction s as [|c s IH]; [reflexivity |].
    unfold encode in *. cbn [list_ascii_of_string flat_map].
    rewrite utf8_scan_encode_char, IH. reflexivity. }
  now rewrite H.
Qed.

(** X2.  After a run of [reindex_bucket] over a listing whose pages all
    carry common prefixes, a [GET] of the base path (plain) returns
    status 200 with the root page that was rendered from that listing. *)
Theorem reindex_then_index_served (env : environ) (ev : event) (raw : string)
    (w : world) :
  Re.plain (BASE_PATH env) = true ->
  Str.strip "/" raw = BASE_PATH env ->
  Forall (fun pg => CommonPrefixes pg <> None) (listing w None (Some "/")) ->
  exists w1 w2 : world,
    reindex_bucket env ev w = (Ok tt, w1)
    /\ proxy_request env (get_request raw) w1
       = (Ok (proxy_reponse
                (root_page (map pkg_name (page_prefixes (listing w None (Some "/")))))
                None), w2).
Proof.
  intros Hb Hraw Hall. eexists _, _. split.
  - rewrite reindex_bucket_outcome, page_pkgs_all_present by assumption. reflexivity.
  - unfold get_request. rewrite proxy_request_unfold. cbn [path httpMethod].
    change (existsb _ _) with true. cbn iota.
    rewrite Hraw, get_response_by_prefix by assumption.
    unfold route_by_prefix. rewrite segment_after_base.
    rewrite String.eqb_refl, get_index_outcome. cbn [objects].
    rewrite lookup_insert_eq, decode_encode_id. reflexivity.
Qed.

Lemma reindex_then_index_served_witness :
  Re.plain (BASE_PATH env_simple) = true
  /\ Str.strip "/" "/simple/" = BASE_PATH env_simple
  /\ Forall (fun pg => CommonPrefixes pg <> None) (listing demo_world None (Some "/"))
  /\ exists w1 w2 : world,
    reindex_bucket env_simple (Event None None) demo_world = (Ok tt, w1)
    /\ proxy_request env_simple (get_request "/simple/") w1
       = (Ok (proxy_reponse
                (root_page (map pkg_name
                              (page_prefixes (listing demo_world None (Some "/")))))
                None), w2).
Proof.
  assert (Hall : Forall (fun pg => CommonPrefixes pg <> None)
                   (listing demo_world None (Some "/"))).
  { repeat constructor; discriminate. }
  split; [reflexivity |]. split; [reflexivity |]. split; [exact Hall |].
  apply (reindex_then_index_served env_simple (Event None None) "/simple/" demo_world);
    [reflexivity | reflexivity | exact Hall].
Defined.

(** X3.  Whatever the event, a response of [proxy_request] has one of
    three shapes: status 200 with a body and the content type
    [text/html; charset=UTF-8]; status 301 with the header [Location]
    set to [/] and the base path, without a body; status 403 without
    body and headers. *)
Theorem router_response_shapes (env : environ) (ev : event) (w w' : world)
    (resp : response) :
  proxy_request env ev w = (Ok resp, w') ->
  (statusCode resp = 200%Z
   /\ (exists html, body resp = Some html)
   /\ headers resp = Some {[ "Content-Type" := "text/html; charset=UTF-8" ]})
  \/ (statusCode resp = 301%Z
      /\ body resp = None
      /\ headers resp = Some {[ "Location" := "/" +:+ BASE_PATH env ]})
  \/ (statusCode resp = 403%Z /\ body resp = None /\ headers resp = None).
Proof.
  rewrite proxy_request_unfold. destruct (path ev) as [raw|]; [| discriminate].
  destruct (existsb _ _).
  - intros H. apply get_response_shape in H as [[html ->] | [-> | ->]].
    + left. split; [reflexivity |]. split; [now exists html | reflexivity].
    + right. left. repeat split.
    + right. right. repeat split.
  - intros H. inversion H. right. right. repeat split.
Qed.

Lemma router_response_shapes_witness :
  proxy_request env_simple (get_request "/") demo_world
  = (Ok (redirect "/simple"), demo_world)
  /\ ((statusCode (redirect "/simple") = 200%Z
       /\ (exists html, body (redirect "/simple") = Some html)
       /\ headers (redirect "/simple")
          = Some {[ "Content-Type" := "text/html; charset=UTF-8" ]})
      \/ (statusCode (redirect "/simple") = 301%Z
          /\ body (redirect "/simple") = None
          /\ headers (redirect "/simple")
             = Some {[ "Location" := "/" +:+ BASE_PATH env_simple ]})
      \/ (statusCode (redirect "/simple") = 403%Z
          /\ body (redirect "/simple") = None
          /\ headers (redirect "/simple") = None)).
Proof.
  split; [reflexivity |].
  apply (router_response_shapes env_simple (get_request "/") demo_world demo_world
           (redirect "/simple")).
  reflexivity.
Defined.

(** X4.  [proxy_request] never writes: whatever the event and the
    outcome, the objects of the bucket are as before and none of the
    client calls it made is an upload. *)
Theorem router_never_writes (env : environ) (ev : event) (w : world) :
  objects (snd (proxy_request env ev w)) = objects w
  /\ exists cs : list s3_call,
       calls (snd (proxy_request env ev w)) = calls w ++ cs
       /\ existsb is_put cs = false.
Proof.
  assert (H : exists cs, snd (proxy_request env ev w) = logged cs w
                         /\ existsb is_put cs = false).
  { rewrite proxy_request_unfold. destruct (path ev) as [raw|].
    - destruct (existsb _ _); [apply get_response_reads |].
      exists []. now rewrite logged_nil.
    - exists []. now rewrite logged_nil. }
  destruct H as (cs & -> & Hcs). split; [reflexivity |]. now exists cs.
Qed.

(** X5.  [reindex_bucket] touches no object but [index.html]: every
    other key holds after the run, successful or not, what it held
    before. *)
Theorem reindex_touches_only_index (env : environ) (ev : event) (w : world)
    (k : string) :
  k <> "index.html" ->
  objects (snd (reindex_bucket env ev w)) !! k = objects w !! k.
Proof.
  intros Hk. rewrite reindex_bucket_outcome.
  destruct (page_pkgs _); [| reflexivity].
  cbn [snd objects]. now rewrite lookup_insert_ne.
Qed.

Lemma reindex_touches_only_index_witness :
  "foo/foo-1.0.tar.gz" <> "index.html"
  /\ objects (snd (reindex_bucket env_simple (Event None None) demo_world))
       !! "foo/foo-1.0.tar.gz"
     = objects demo_world !! "foo/foo-1.0.tar.gz".
Proof.
  split; [discriminate |].
  apply (reindex_touches_only_index env_simple (Event None None) demo_world
           "foo/foo-1.0.tar.gz").
  discriminate.
Defined.

(** X6.  For every listing whose pages all carry common prefixes,
    [reindex_bucket] stores a root page with one anchor per prefix, in
    the order of the listing: the head of the page titled
    [Simple index], the anchors, the end of the page; the anchor of a
    prefix has the prefix without its slashes both as target and as
    text. *)
Theorem reindex_lists_every_prefix (env : environ) (ev : event) (w : world) :
  Forall (fun pg => CommonPrefixes pg <> None) (listing w None (Some "/")) ->
  exists (anchors : list string) (w' : world),
    reindex_bucket env ev w = (Ok tt, w')
    /\ objects w' !! "index.html"
       = Some (encode (render_index "Simple index" (Str.join anchors)))
    /\ render_index "Simple index" (Str.join anchors)
       = "<!DOCTYPE html><html><head><title>Simple index</title></head>"
         +:+ "<body><h1>Simple index</h1>" +:+ Str.join anchors +:+ "</body></html>"
    /\ length anchors = length (page_prefixes (listing w None (Some "/")))
    /\ forall (i : nat) (x : common_prefix),
         page_prefixes (listing w None (Some "/")) !! i = Some x ->
         anchors !! i
         = Some (render_anchor (Str.strip "/" (Prefix x), Str.strip "/" (Prefix x)))
         /\ anchors !! i
            = Some ("<a href=" +:+ Str.dquote +:+ Str.strip "/" (Prefix x)
                    +:+ Str.dquote +:+ ">" +:+ Str.strip "/" (Prefix x)
                    +:+ "</a><br>").
Proof.
  intros Hall.
  exists (map (fun pkg => render_anchor (pkg, pkg))
            (map pkg_name (page_prefixes (listing w None (Some "/"))))).
  eexists. split; [| split; [| split; [| split]]].
  - rewrite reindex_bucket_outcome, page_pkgs_all_present by assumption. reflexivity.
  - cbn [objects]. apply lookup_insert_eq.
  - apply render_index_html.
  - now rewrite !length_map.
  - intros i x Hx. rewrite !list_lookup_fmap, Hx. split; reflexivity.
Qed.

Lemma reindex_lists_every_prefix_witness :
  Forall (fun pg => CommonPrefixes pg <> None) (listing demo_world None (Some "/"))
  /\ exists (anchors : list string) (w' : world),
    reindex_bucket env_simple (Event None None) demo_world = (Ok tt, w')
    /\ objects w' !! "index.html"
       = Some (encode (render_index "Simple index" (Str.join anchors)))
    /\ render_index "Simple index" (Str.join anchors)
       = "<!DOCTYPE html><html><head><title>Simple index</title></head>"
         +:+ "<body><h1>Simple index</h1>" +:+ Str.join anchors +:+ "</body></html>"
    /\ length anchors = length (page_prefixes (listing demo_world None (Some "/")))
    /\ forall (i : nat) (x : common_prefix),
         page_prefixes (listing demo_world None (Some "/")) !! i = Some x ->
         anchors !! i
         = Some (render_anchor (Str.strip "/" (Prefix x), Str.strip "/" (Prefix x)))
         /\ anchors !! i
            = Some ("<a href=" +:+ Str.dquote +:+ Str.strip "/" (Prefix x)
                    +:+ Str.dquote +:+ ">" +:+ Str.strip "/" (Prefix x)
                    +:+ "</a><br>").
Proof.
  assert (Hall : Forall (fun pg => CommonPrefixes pg <> None)
                   (listing demo_world None (Some "/"))).
  { repeat constructor; discriminate. }
  split; [exact Hall |].
  apply (reindex_lists_every_prefix env_simple (Event None None) demo_world Hall).
Defined.

(** X7.  A slash before and a slash after the request path change
    nothing: the handler answers [/raw/] as it answers [raw], for
    every method. *)
Theorem surrounding_slashes_ignored (env : environ) (method : option string)
    (raw : string) (w : world) :
  proxy_request env (Event method (Some ("/" +:+ raw +:+ "/"))) w
  = proxy_request env (Event method (Some raw)) w.
Proof.
  rewrite !proxy_request_unfold. cbn [path httpMethod].
  change ("/" +:+ raw +:+ "/") with (String "/" (raw +:+ String "/" EmptyString)).
  now rewrite strip_cons, strip_snoc.
Qed.

(** X8.  The base path never starts or ends with a slash, stripping
    it again changes nothing, and the settings [/b/] and [b] of the
    variable give the same base path. *)
Theorem base_path_normalised (env : environ) (b bucket : string) (ttl : option Z) :
  head_ok "/" (BASE_PATH env) = true
  /\ last_ok "/" (BASE_PATH env) = true
  /\ Str.strip "/" (BASE_PATH env) = BASE_PATH env
  /\ BASE_PATH (Environ (Some ("/" +:+ b +:+ "/")) bucket ttl)
     = BASE_PATH (Environ (Some b) bucket ttl).
Proof.
  unfold BASE_PATH. split; [apply strip_head_ok |]. split; [apply strip_last_ok |].
  split; [apply strip_idempotent |].
  change (Str.strip "/" (String "/" (b +:+ String "/" EmptyString)) = Str.strip "/" b).
  now rewrite strip_cons, strip_snoc.
Qed.

(** X9.  The text of an anchor is the file name: for a key
    [pkg/file] with [file] free of slashes the last segment is [file],
    and the last segment of any key has no slash. *)
Theorem display_name_is_file_name (env : environ) (w : world) (pkg file key : string) :
  (Str.mem "/" file = false -> snd (os_path_split (pkg +:+ "/" +:+ file)) = file)
  /\ Str.mem "/" (snd (os_path_split key)) = false
  /\ (Str.mem "/" file = false ->
      package_anchors env w [pkg +:+ "/" +:+ file]
      = [render_anchor (presigned_url env w (pkg +:+ "/" +:+ file), file)]).
Proof.
  split; [| split].
  - intros Hf. cbn [os_path_split snd]. now apply after_last_append.
  - cbn [os_path_split snd]. apply after_last_no_sep.
  - intros Hf. pose proof (after_last_append "/" pkg file Hf) as H.
    change (pkg +:+ String "/" file) with (pkg +:+ "/" +:+ file) in H.
    unfold package_anchors, basename. cbn [map os_path_split snd].
    now rewrite H.
Qed.

Lemma display_name_is_file_name_witness :
  Str.mem "/" "foo-1.0.tar.gz" = false
  /\ snd (os_path_split ("foo" +:+ "/" +:+ "foo-1.0.tar.gz")) = "foo-1.0.tar.gz"
  /\ Str.mem "/" (snd (os_path_split "a/b/c")) = false
  /\ package_anchors env_simple demo_world ["foo" +:+ "/" +:+ "foo-1.0.tar.gz"]
     = [render_anchor (presigned_url env_simple demo_world
                         ("foo" +:+ "/" +:+ "foo-1.0.tar.gz"), "foo-1.0.tar.gz")].
Proof.
  destruct (display_name_is_file_name env_simple demo_world "foo" "foo-1.0.tar.gz"
              "a/b/c") as (H1 & H2 & H3).
  split; [reflexivity |]. split; [exact (H1 eq_refl) |].
  split; [exact H2 | exact (H3 eq_refl)].
Defined.

(** X10.  The response of [get_package_index] in full: status 200,
    content type [text/html; charset=UTF-8], and as body the page
    titled [Links for p] with, per key and in order, the anchor made of
    the presigned URL and the file name, both copied as they are, with
    no escaping. *)
Theorem package_index_html (env : environ) (p : string) (w : world) :
  let K := page_keys (listing w (Some (p +:+ "/")) None) in
  let anchor k :=
    "<a href=" +:+ Str.dquote +:+ presigned_url env w k +:+ Str.dquote +:+ ">"
    +:+ snd (os_path_split k) +:+ "</a><br>" in
  fst (get_package_index env p w)
  = Ok (Response
          (Some ("<!DOCTYPE html><html><head><title>Links for " +:+ p
                 +:+ "</title></head><body><h1>Links for " +:+ p +:+ "</h1>"
                 +:+ Str.join (map anchor K) +:+ "</body></html>"))
          (Some {[ "Content-Type" := "text/html; charset=UTF-8" ]})
          200).
Proof.
  intros K anchor. pose proof (get_package_index_spec env p w) as Hs.
  cbn zeta in Hs. rewrite Hs. cbn [fst]. unfold package_page, package_anchors.
  rewrite render_index_html. unfold proxy_reponse. cbn [Str.truthy].
  rewrite (map_ext _ anchor) by (intros k; apply render_anchor_html).
  reflexivity.
Qed.

(** X11.  The signing calls of [get_package_index]: apart from the
    listing, the calls it makes are one [generate_presigned_url] per
    key, for [get_object] with the configured time-to-live and the
    method [GET], in the order of the keys, and no other; the objects
    of the bucket are as before. *)
Theorem package_index_signs_each_key (env : environ) (p : string) (w : world) :
  let K := page_keys (listing w (Some (p +:+ "/")) None) in
  exists cs : list s3_call,
    calls (snd (get_package_index env p w)) = calls w ++ cs
    /\ other_calls cs
       = map (fun k => GeneratePresignedUrl "get_object" (S3_PRESIGNED_URL_TTL env)
                         "GET" (S3_BUCKET env) k) K
    /\ objects (snd (get_package_index env p w)) = objects w.
Proof.
  intros K. pose proof (get_package_index_spec env p w) as Hs.
  cbn zeta in Hs. rewrite Hs. eexists. split; [reflexivity |].
  split; [| reflexivity].
  unfold other_calls. cbn [List.filter is_listing negb]. fold K.
  induction K as [|k K IH]; [reflexivity |].
  cbn [map List.filter presign_call is_listing negb]. now rewrite IH.
Qed.

Lemma base_path_serves_cached_index_witness :
  BASE_PATH env_simple <> EmptyString
  /\ Re.plain (BASE_PATH env_simple) = true
  /\ Str.strip "/" "/simple/" = BASE_PATH env_simple
  /\ objects fresh_index !! "index.html" = Some (encode (root_page ["a"; "b"]))
  /\ decode (encode (root_page ["a"; "b"])) = Ok (root_page ["a"; "b"])
  /\ proxy_request env_simple (get_request "/simple/") fresh_index
     = (Ok (proxy_reponse (root_page ["a"; "b"]) None),
        logged [GetObject (S3_BUCKET env_simple) "index.html"] fresh_index).
Proof.
  split; [discriminate |]. split; [reflexivity |]. split; [reflexivity |].
  split; [by_evaluation |]. split; [by_evaluation |].
  apply (base_path_serves_cached_index env_simple "/simple/" fresh_index
           (encode (root_page ["a"; "b"])) (root_page ["a"; "b"]));
    [discriminate | reflexivity | reflexivity | by_evaluation | by_evaluation].
Defined.

(** X13.  On the root index route of a plain base path, a bucket
    without [index.html] makes the request raise [NoSuchKey], and a
    cached index that does not decode makes it raise the decoding
    error; either way after the one [get_object] call. *)
Theorem index_route_failures (env : environ) (raw : string) (w : world) :
  Re.plain (BASE_PATH env) = true ->
  Str.strip "/" raw = BASE_PATH env ->
  (objects w !! "index.html" = None ->
   proxy_request env (get_request raw) w
   = (Raise NoSuchKey, logged [GetObject (S3_BUCKET env) "index.html"] w))
  /\ (forall (content : bytes) (e : exn),
        objects w !! "index.html" = Some content ->
        decode content = Raise e ->
        proxy_request env (get_request raw) w
        = (Raise e, logged [GetObject (S3_BUCKET env) "index.html"] w)).
Proof.
  intros Hb Hraw.
  assert (H : proxy_request env (get_request raw) w = get_index env w).
  { unfold get_request. rewrite proxy_request_unfold. cbn [path httpMethod].
    change (existsb _ _) with true. cbn iota.
    rewrite Hraw, get_response_by_prefix by assumption.
    unfold route_by_prefix. now rewrite segment_after_base, String.eqb_refl. }
  rewrite H, get_index_outcome. split.
  - now intros ->.
  - intros content e -> ->. reflexivity.
Qed.

Lemma index_route_failures_witness :
  Re.plain (BASE_PATH env_simple) = true
  /\ Str.strip "/" "/simple/" = BASE_PATH env_simple
  /\ objects empty_bucket !! "index.html" = None
  /\ objects bad_index !! "index.html" = Some [ascii_of_nat 255]
  /\ decode [ascii_of_nat 255] = Raise UnicodeDecodeError
  /\ proxy_request env_simple (get_request "/simple/") empty_bucket
     = (Raise NoSuchKey, logged [GetObject (S3_BUCKET env_simple) "index.html"] empty_bucket)
  /\ proxy_request env_simple (get_request "/simple/") bad_index
     = (Raise UnicodeDecodeError,
        logged [GetObject (S3_BUCKET env_simple) "index.html"] bad_index).
Proof.
  split; [reflexivity |]. split; [reflexivity |]. split; [by_evaluation |].
  split; [by_evaluation |]. split; [by_evaluation |]. split.
  - apply (proj1 (index_route_failures env_simple "/simple/" empty_bucket
                    eq_refl eq_refl)).
    by_evaluation.
  - apply (proj2 (index_route_failures env_simple "/simple/" bad_index
                    eq_refl eq_refl) [ascii_of_nat 255] UnicodeDecodeError);
      by_evaluation.
Defined.

Lemma segment_routed_to_package_index_witness :
  Re.plain (BASE_PATH env_simple) = true
  /\ "foo" <> EmptyString
  /\ Str.mem "/" "foo" = false
  /\ Str.strip "/" "/simple/foo/" = BASE_PATH env_simple +:+ "/" +:+ "foo"
  /\ proxy_request env_simple (get_request "/simple/foo/") demo_world
     = get_package_index env_simple "foo" demo_world.
Proof.
  split; [reflexivity |]. split; [discriminate |]. split; [reflexivity |].
  split; [reflexivity |].
  apply (segment_routed_to_package_index env_simple "/simple/foo/" "foo" demo_world);
    [reflexivity | discriminate | reflexivity | reflexivity].
Defined.

(** X15.  With an empty base path no request is answered with a
    redirect: every response has status 200 or 403, and [GET /] is
    answered by the cached index. *)
Theorem empty_base_never_redirects (env : environ) (ev : event) (raw : string)
    (w w' : world) (resp : response) :
  BASE_PATH env = EmptyString ->
  (proxy_request env ev w = (Ok resp, w') ->
   statusCode resp = 200%Z \/ statusCode resp = 403%Z)
  /\ (Str.strip "/" raw = EmptyString ->
      proxy_request env (get_request raw) w = get_index env w).
Proof.
  intros Hb. split.
  - rewrite proxy_request_unfold. destruct (path ev) as [r|]; [| discriminate].
    destruct (existsb _ _); [| intros H; inversion H; now right].
    unfold get_response, bind at 1, lift.
    destruct (match_group1 _ _) as [name|]; [| discriminate].
    destruct (Str.truthy name).
    + pose proof (get_package_index_spec env (default EmptyString name) w) as Hs.
      cbn zeta in Hs. rewrite Hs. intros H. inversion H. now left.
    + rewrite Hb. destruct (String.eqb EmptyString (Str.strip "/" r)).
      * rewrite get_index_outcome. destruct (objects w !! "index.html"); [| discriminate].
        destruct (decode _); [| discriminate]. intros H. inversion H. now left.
      * intros H. inversion H. now right.
  - intros Hraw. unfold get_request. rewrite proxy_request_unfold. cbn [path httpMethod].
    change (existsb _ _) with true. cbn iota.
    rewrite Hraw, get_response_by_prefix by (rewrite Hb; reflexivity).
    unfold route_by_prefix. rewrite Hb. reflexivity.
Qed.

Lemma empty_base_never_redirects_witness :
  BASE_PATH env_no_base = EmptyString
  /\ proxy_request env_no_base (get_request "/foo/") demo_world
     = (Ok (reject 403), demo_world)
  /\ Str.strip "/" "/" = EmptyString
  /\ (statusCode (reject 403) = 200%Z \/ statusCode (reject 403) = 403%Z)
  /\ proxy_request env_no_base (get_request "/") demo_world
     = get_index env_no_base demo_world.
Proof.
  destruct (empty_base_never_redirects env_no_base (get_request "/foo/") "/"
              demo_world demo_world (reject 403) eq_refl) as [H1 H2].
  split; [reflexivity |]. split; [by_evaluation |]. split; [reflexivity |].
  split; [apply H1; by_evaluation | exact (H2 eq_refl)].
Defined.

(** X16.  With a plain base path that is not empty, [GET /] redirects
    to [/] followed by the base path, and a [GET] of that location is
    answered by the cached index: the redirect is followed once. *)
Theorem redirect_leads_to_index (env : environ) (w : world) :
  BASE_PATH env <> EmptyString ->
  Re.plain (BASE_PATH env) = true ->
  proxy_request env (get_request "/") w = (Ok (redirect ("/" +:+ BASE_PATH env)), w)
  /\ proxy_request env (get_request ("/" +:+ BASE_PATH env)) w = get_index env w.
Proof.
  intros Hne Hb. unfold get_request. rewrite !proxy_request_unfold.
  cbn [path httpMethod]. change (existsb _ _) with true. cbn iota.
  rewrite !get_response_by_prefix by assumption. split.
  - change (Str.strip "/" "/") with EmptyString. unfold route_by_prefix.
    unfold segment_after. rewrite drop_prefix_app.
    destruct (BASE_PATH env) as [|c b] eqn:E; [congruence | reflexivity].
  - change ("/" +:+ BASE_PATH env) with (String "/" (BASE_PATH env)).
    rewrite strip_cons by reflexivity.
    assert (Hs : Str.strip "/" (BASE_PATH env) = BASE_PATH env)
      by (unfold BASE_PATH; apply strip_idempotent).
    rewrite Hs. unfold route_by_prefix.
    now rewrite segment_after_base, String.eqb_refl.
Qed.

Lemma redirect_leads_to_index_witness :
  BASE_PATH env_simple <> EmptyString
  /\ Re.plain (BASE_PATH env_simple) = true
  /\ proxy_request env_simple (get_request "/") demo_world
     = (Ok (redirect ("/" +:+ BASE_PATH env_simple)), demo_world)
  /\ proxy_request env_simple (get_request ("/" +:+ BASE_PATH env_simple)) demo_world
     = get_index env_simple demo_world.
Proof.
  split; [discriminate |]. split; [reflexivity |].
  apply (redirect_leads_to_index env_simple demo_world); [discriminate | reflexivity].
Defined.

(** X17.  With a plain base path, [GET] and [HEAD] are routed as by a
    prefix test: [base/seg] with [seg] not empty and free of slashes
    goes to the package index of [seg], [base] to the cached index,
    the empty path to the redirect, everything else to 403. *)
Theorem router_equals_prefix_router (env : environ) (method raw : string) (w : world) :
  Re.plain (BASE_PATH env) = true ->
  method = "GET" \/ method = "HEAD" ->
  proxy_request env (Event (Some method) (Some raw)) w
  = route_by_prefix env (Str.strip "/" raw) w.
Proof.
  intros Hb Hm. rewrite proxy_request_get_or_head by assumption.
  now apply get_response_by_prefix.
Qed.

Lemma router_equals_prefix_router_witness :
  Re.plain (BASE_PATH env_simple) = true
  /\ ("GET" = "GET" \/ "GET" = "HEAD")
  /\ proxy_request env_simple (Event (Some "GET") (Some "/simple/foo/x")) demo_world
     = route_by_prefix env_simple (Str.strip "/" "/simple/foo/x") demo_world.
Proof.
  split; [reflexivity |]. split; [now left |].
  apply (router_equals_prefix_router env_simple "GET" "/simple/foo/x" demo_world);
    [reflexivity | now left].
Defined.
